(** * Dolt: the JSON document value, its comparator, and the
      AUTO_INCREMENT tracker

    A shallow embedding of
    - [go/store/types] JSONDoc ([NewJSONDoc], [EmptyJSONDoc], [Len],
      [Empty]) and the comparator [compareJSON] with its five per-kind
      helpers;
    - [go/libraries/doltcore/sqle/dsess] AutoIncrementTracker
      ([NewAutoIncrementTracker], [Current], [Next], [Set], [deepSet],
      [AddNewTable], [DropTable]).

    Go's [(T, error)] results are values of [Result]; the tracker's
    [map[string]uint64] is a [gmap string N] threaded through every
    operation; a [float64] is a [spec_float]. *)

From Stdlib Require Import ZArith NArith Bool List Ascii String Lia.
From Stdlib Require Import Floats.SpecFloat.
From stdpp Require Import gmap strings.

#[local] Set Warnings "-register-all".
Local Open Scope Z_scope.

(** ** Go results *)

(** A Go [error] value, identified by its message. *)
Definition error := string.

(** The outcome of a Go function returning [(T, error)]. *)
Inductive Result (A : Type) : Type :=
| Ok (a : A)
| Err (e : error).
Arguments Ok {A} a.
Arguments Err {A} e.

(** ** go/store/types: JSON values and their order *)

Module types.

(** The kind tags the comparator and the document look at. *)
Inductive NomsKind :=
| BoolKind | FloatKind | StringKind | ListKind | MapKind
| IntKind | UintKind | NullKind | JSONDocKind.

Definition NomsKind_eqb (k1 k2 : NomsKind) : bool :=
  match k1, k2 with
  | BoolKind, BoolKind | FloatKind, FloatKind | StringKind, StringKind
  | ListKind, ListKind | MapKind, MapKind | IntKind, IntKind
  | UintKind, UintKind | NullKind, NullKind | JSONDocKind, JSONDocKind => true
  | _, _ => false
  end.

(** A noms [Value].  [Null], [Bool], [Float], [String], [List] and [Map]
    are the JSON-representable ones; [Int] and [Uint] stand for the values
    of every other kind, which reach the comparator's [default] branch. *)
Inductive Value :=
| Null
| Bool (b : bool)
| Float (f : spec_float)
| String (s : string)
| List (elems : list Value)
| Map (entries : list (Value * Value))
| Int (i : Z)
| Uint (u : N).

Definition Kind (v : Value) : NomsKind :=
  match v with
  | Null => NullKind
  | Bool _ => BoolKind
  | Float _ => FloatKind
  | String _ => StringKind
  | List _ => ListKind
  | Map _ => MapKind
  | Int _ => IntKind
  | Uint _ => UintKind
  end.

(** The legal JSON values. *)
Definition isJSON (v : Value) : bool :=
  match v with
  | Int _ | Uint _ => false
  | _ => true
  end.

(** A float that is a NaN. *)
Definition isNaN (v : Value) : bool :=
  match v with
  | Float S754_nan => true
  | _ => false
  end.

(** [float64] values among the [spec_float]s. *)
Definition is_float64 (f : spec_float) : bool := valid_binary 53 1024 f.

(** Go's [strings.Compare]: byte-wise lexicographic, as -1, 0 or +1. *)
Definition strings_Compare (a b : string) : Z :=
  match String.compare a b with
  | Lt => -1
  | Eq => 0
  | Gt => 1
  end.

(** Go's [a < b] on [float64]: false as soon as one side is a NaN. *)
Definition float_lt (a b : spec_float) : bool := SFltb a b.

(** Go's [a > b] on [float64]. *)
Definition float_gt (a b : spec_float) : bool := SFltb b a.

Section Comparator.

(** [List.Less] and [Map.Less] are methods of the store's collection
    types, declared in their own files of package types: the comparator
    is parametric in them. *)
Variable List_Less : list Value -> list Value -> Result bool.
Variable Map_Less : list (Value * Value) -> list (Value * Value) -> Result bool.

Definition compareJSONBool (a : bool) (b : Value) : Result Z :=
  match b with
  | Bool b =>
      if Bool.eqb a b then Ok 0
      else if a then Ok 1
      else Ok (-1)
  | _ => Ok 1
  end.

Definition compareJSONArray (a : list Value) (b : Value) : Result Z :=
  match b with
  | Bool _ => Ok (-1)
  | List b =>
      match List_Less a b with
      | Err e => Err e
      | Ok aLess =>
          if aLess then Ok (-1)
          else match List_Less b a with
               | Err e => Err e
               | Ok bLess => if bLess then Ok 1 else Ok 0
               end
      end
  | _ => Ok 1
  end.

Definition compareJSONObject (a : list (Value * Value)) (b : Value) : Result Z :=
  match b with
  | Bool _ | List _ => Ok (-1)
  | Map b =>
      match Map_Less a b with
      | Err e => Err e
      | Ok aLess =>
          if aLess then Ok (-1)
          else match Map_Less b a with
               | Err e => Err e
               | Ok bLess => if bLess then Ok 1 else Ok 0
               end
      end
  | _ => Ok 1
  end.

Definition compareJSONString (a : string) (b : Value) : Result Z :=
  match b with
  | Bool _ | List _ | Map _ => Ok (-1)
  | String b => Ok (strings_Compare a b)
  | _ => Ok 1
  end.

Definition compareJSONNumber (a : spec_float) (b : Value) : Result Z :=
  match b with
  | Bool _ | List _ | Map _ | String _ => Ok (-1)
  | Float b =>
      if float_gt a b then Ok 1
      else if float_lt a b then Ok (-1)
      else Ok 0
  | _ => Ok 1
  end.

Definition compareJSON (a b : Value) : Result Z :=
  let aNull := NomsKind_eqb (Kind a) NullKind in
  let bNull := NomsKind_eqb (Kind b) NullKind in
  if aNull && bNull then Ok 0
  else if aNull && negb bNull then Ok (-1)
  else if negb aNull && bNull then Ok 1
  else
    match a with
    | Bool a => compareJSONBool a b
    | List a => compareJSONArray a b
    | Map a => compareJSONObject a b
    | String a => compareJSONString a b
    | Float a => compareJSONNumber a b
    | _ => Err "unexpected type"%string
    end.

End Comparator.

(** *** The JSON document *)

(** [JSONDoc] wraps a [valueImpl]; of its fields the byte buffer and the
    offsets are kept, the store handle [vrw] and the format [nbf] are
    handles that neither [Len] nor [Empty] reads. *)
Record JSONDoc := mkJSONDoc {
  buff : list Byte.byte;
  offsets : list N
}.

Section Writer.

(** The binary writer of the store ([NomsKind.writeTo], [writeCount],
    [Value.writeTo]) belongs to the codec of package types: the
    constructors are parametric in it. *)
Variable writeKind : NomsKind -> Result (list Byte.byte).
Variable writeCount : N -> list Byte.byte.
Variable writeValue : Value -> Result (list Byte.byte).

(** [EmptyJSONDoc]: the kind tag followed by the count 0.  A failure to
    write the tag panics ([d.PanicIfError]): the [Err] outcome. *)
Definition EmptyJSONDoc : Result JSONDoc :=
  match writeKind JSONDocKind with
  | Err e => Err e
  | Ok k => Ok (mkJSONDoc (k ++ writeCount 0%N) [])
  end.

(** [NewJSONDoc]: the document with count 1 and a nil error, or what
    [EmptyJSONDoc] gives together with the writer's error. *)
Definition NewJSONDoc (value : Value) : Result JSONDoc * option error :=
  match writeKind JSONDocKind with
  | Err e => (EmptyJSONDoc, Some e)
  | Ok k =>
      match writeValue value with
      | Err e => (EmptyJSONDoc, Some e)
      | Ok v => (Ok (mkJSONDoc (k ++ writeCount 1%N ++ v) []), None)
      end
  end.

End Writer.

Definition Len (t : JSONDoc) : N := 1%N.

Definition Empty (t : JSONDoc) : bool := (Len t =? 0)%N.

(** What [Less] may be handed: another document or a value of any other
    kind. *)
Inductive LesserValuable :=
| LV_JSONDoc (d : JSONDoc)
| LV_Value (v : Value).

Section Decoder.

Variable List_Less : list Value -> list Value -> Result bool.
Variable Map_Less : list (Value * Value) -> list (Value * Value) -> Result bool.

(** The value decoder of the codec, as [Inner] drives it over the bytes
    left to read: past the kind tag, past the count, then one value.
    [kindNumber] is the number a kind tag stands for. *)
Variable skipKind : list Byte.byte -> list Byte.byte.
Variable skipCount : list Byte.byte -> list Byte.byte.
Variable readValue : list Byte.byte -> Result Value.
Variable kindNumber : NomsKind -> N.

Definition Inner (t : JSONDoc) : Result Value :=
  let dec := buff t in
  let dec := skipKind dec in
  let dec := skipCount dec in
  readValue dec.

Definition Compare (t other : JSONDoc) : Result Z :=
  match Inner t with
  | Err e => Err e
  | Ok left_ =>
      match Inner other with
      | Err e => Err e
      | Ok right_ => compareJSON List_Less Map_Less left_ right_
      end
  end.

Definition Less (t : JSONDoc) (other : LesserValuable) : Result bool :=
  match other with
  | LV_Value v => Ok (kindNumber JSONDocKind <? kindNumber (Kind v))%N
  | LV_JSONDoc otherJSONDoc =>
      match Compare t otherJSONDoc with
      | Err e => Err e
      | Ok cmp => Ok (cmp =? -1)
      end
  end.

End Decoder.

End types.

(** ** go/libraries/doltcore/sqle/dsess: the AUTO_INCREMENT tracker *)

Module dsess.

Local Open Scope N_scope.

(** *** uint64 and table names *)

Definition uint64_modulus : N := 2 ^ 64.

(** [x++] on a [uint64]. *)
Definition incr (x : N) : N := (x + 1) mod uint64_modulus.

Definition isUpper (c : ascii) : bool :=
  (65 <=? N_of_ascii c) && (N_of_ascii c <=? 90).

Definition toLowerByte (c : ascii) : ascii :=
  if isUpper c then ascii_of_N (N_of_ascii c + 32) else c.

Section Lowering.

(** Go's [strings.ToLower] sends every rune of a string through
    [unicode.ToLower] and writes the result in UTF-8.  A byte below 128 is
    a rune by itself wherever it stands, and is lowered by the ASCII rule
    above.  The bytes from 128 on that stand between two such bytes are
    decoded, lowered by the Unicode tables of Go's library and encoded
    again, without a look at the bytes around them; [lowerRun] stands for
    that work on one maximal run of such bytes. *)
Variable lowerRun : string -> string.

Definition flushRun (run : string) : string :=
  match run with
  | EmptyString => EmptyString
  | _ => lowerRun run
  end.

(** The scan, with the run of bytes from 128 on read so far. *)
Fixpoint lowerFrom (run s : string) : string :=
  match s with
  | EmptyString => flushRun run
  | String.String c r =>
      if N_of_ascii c <? 128
      then String.append (flushRun run)
             (String.String (toLowerByte c) (lowerFrom EmptyString r))
      else lowerFrom (String.append run (String.String c EmptyString)) r
  end.

Definition ToLower (s : string) : string := lowerFrom EmptyString s.

(** *** The read interface of the roots (package doltdb) *)

Record Schema := mkSchema {
  HasAutoIncrement : bool
}.

Record Table := mkTable {
  GetSchema : Result Schema;
  GetAutoIncrementValue : Result N
}.

(** A root value, as the tracker reads it: the tables [IterTables] visits,
    in order, where an [Err] entry is a table the iteration fails to load;
    and the case-insensitive lookup, which answers a table, no table, or
    an error. *)
Record RootValue := mkRootValue {
  tables : list (Result (string * Table * Schema));
  GetTableInsensitive : string -> Result (option Table)
}.

Record Rootish := mkRootish {
  ResolveRootValue : Result RootValue
}.

Record WorkingSet := mkWorkingSet {
  WorkingRoot : RootValue;
  ws_ResolveRootValue : Result RootValue
}.

Record Commit := mkCommit {
  cm_ResolveRootValue : Result RootValue
}.

(** Modelled from the spec: [Root.IterTables(f)], which is declared in
    package doltdb: for each (name, table, schema) it invokes
    [f] and stops early if [f] returns true (or an error).  The callback
    updates the state [S] it closes over. *)
Fixpoint IterTables {S : Type} (entries : list (Result (string * Table * Schema)))
    (cb : string -> Table -> Schema -> S -> S * bool * option error) (st : S)
    : S * option error :=
  match entries with
  | [] => (st, None)
  | Err e :: _ => (st, Some e)
  | Ok (name, table, sch) :: rest =>
      match cb name table sch st with
      | (st', _, Some e) => (st', Some e)
      | (st', true, None) => (st', None)
      | (st', false, None) => IterTables rest cb st'
      end
  end.

(** *** The tracker *)

(** The mutex [mu] is held for the whole of every operation; the
    operations are modelled as run one after the other. *)
Record AutoIncrementTracker := mkTracker {
  dbName : string;
  sequences : gmap string N
}.

(** [m[k]] on a Go map: the zero value when the key is absent. *)
Definition seq_get (m : gmap string N) (k : string) : N := default 0 (m !! k).

(** The callback [NewAutoIncrementTracker] hands to [IterTables]. *)
Definition initTable (tableName : string) (table : Table) (sch : Schema)
    (seqs : gmap string N) : gmap string N * bool * option error :=
  if negb (HasAutoIncrement sch) then (seqs, false, None)
  else
    let tableName := ToLower tableName in
    match GetAutoIncrementValue table with
    | Err e => (seqs, true, Some e)
    | Ok seq =>
        if seq_get seqs tableName <? seq
        then (<[tableName := seq]> seqs, false, None)
        else (seqs, false, None)
    end.

Fixpoint initRoots (roots : list Rootish) (seqs : gmap string N)
    : Result (gmap string N) :=
  match roots with
  | [] => Ok seqs
  | root :: rest =>
      match ResolveRootValue root with
      | Err e => Err e
      | Ok root =>
          match IterTables (tables root) initTable seqs with
          | (_, Some e) => Err e
          | (seqs', None) => initRoots rest seqs'
          end
      end
  end.

Definition NewAutoIncrementTracker (dbName : string) (roots : list Rootish)
    : Result AutoIncrementTracker :=
  match initRoots roots ∅ with
  | Err e => Err e
  | Ok seqs => Ok (mkTracker dbName seqs)
  end.

Definition Current (a : AutoIncrementTracker) (tableName : string) : N :=
  seq_get (sequences a) (ToLower tableName).

Definition set_seq (a : AutoIncrementTracker) (k : string) (v : N) : AutoIncrementTracker :=
  mkTracker (dbName a) (<[k := v]> (sequences a)).

(** A Go value handed to [Next] as [interface{}]. *)
Inductive GoValue :=
| go_nil
| go_float32 (f : spec_float)
| go_float64 (f : spec_float)
| go_uint64 (u : N)
| go_int64 (i : Z)
| go_string (s : string).

Section Coercion.

(** [math.Round] of Go's library and [types.Uint64.Convert] of the SQL
    engine, which answers nil, a uint64, or an error. *)
Variable math_Round : spec_float -> spec_float.
Variable Uint64_Convert : GoValue -> Result (option N).

Definition CoerceAutoIncrementValue (val : GoValue) : Result N :=
  let val :=
    match val with
    | go_float32 typ => go_float64 (math_Round typ)
    | go_float64 typ => go_float64 (math_Round typ)
    | _ => val
    end in
  match Uint64_Convert val with
  | Err e => Err e
  | Ok None => Ok 0
  | Ok (Some u) => if u =? 0 then Ok 0 else Ok u
  end.

Definition Next (a : AutoIncrementTracker) (tbl : string) (insertVal : GoValue)
    : Result N * AutoIncrementTracker :=
  let tbl := ToLower tbl in
  match CoerceAutoIncrementValue insertVal with
  | Err e => (Err e, a)
  | Ok given =>
      let curr := seq_get (sequences a) tbl in
      if given =? 0 then (Ok curr, set_seq a tbl (incr curr))
      else if curr <=? given then (Ok given, set_seq a tbl (incr given))
      else (Ok given, a)
  end.

End Coercion.

Definition AddNewTable (a : AutoIncrementTracker) (tableName : string)
    : AutoIncrementTracker :=
  let tableName := ToLower tableName in
  match sequences a !! tableName with
  | None => set_seq a tableName 1
  | Some _ => a
  end.

(** The scan of [DropTable] over the working sets given; every
    assignment to [a.sequences] is made at once, as in the source. *)
Fixpoint dropScan (wses : list WorkingSet) (tableName : string)
    (a : AutoIncrementTracker) : option error * AutoIncrementTracker :=
  match wses with
  | [] => (None, a)
  | ws :: rest =>
      match GetTableInsensitive (WorkingRoot ws) tableName with
      | Err e => (Some e, a)
      | Ok None => dropScan rest tableName a
      | Ok (Some table) =>
          match GetSchema table with
          | Err e => (Some e, a)
          | Ok sch =>
              if HasAutoIncrement sch then
                match GetAutoIncrementValue table with
                | Err e => (Some e, a)
                | Ok seq =>
                    if seq_get (sequences a) tableName <? seq
                    then dropScan rest tableName (set_seq a tableName seq)
                    else dropScan rest tableName a
                end
              else dropScan rest tableName a
          end
      end
  end.

Definition DropTable (a : AutoIncrementTracker) (tableName : string)
    (wses : list WorkingSet) : option error * AutoIncrementTracker :=
  let tableName := ToLower tableName in
  dropScan wses tableName (set_seq a tableName 1).

(** *** The reference registry read by [deepSet] *)

Inductive RefType :=
| BranchRefType | RemoteRefType | InternalRefType | TagRefType | InvalidRefType.

Record DoltRef := mkDoltRef {
  GetType : RefType;
  GetPath : string
}.

(** A working-set ref, identified by its path; [==] compares the paths. *)
Definition WorkingSetRef := string.

Definition ErrWorkingSetNotFound : error := "working set not found"%string.

(** What a call through a nil [Rootish] ends in. *)
Definition nil_dereference : error :=
  "invalid memory address or nil pointer dereference"%string.

Record DoltDB := mkDoltDB {
  GetBranches : Result (list DoltRef);
  GetRemoteRefs : Result (list DoltRef);
  ResolveWorkingSet : WorkingSetRef -> Result WorkingSet;
  ResolveCommitRef : DoltRef -> Result Commit
}.

Record SqlDatabase := mkSqlDatabase {
  Versioned : bool;
  DoltDatabases : list DoltDB
}.

(** The session context: [sess.Provider().BaseDatabase(ctx, name)], a
    database or not found. *)
Record Context := mkContext {
  BaseDatabase : string -> option SqlDatabase
}.

(** How one turn of a loop body ends before its last statement. *)
Inductive Step (A : Type) : Type :=
| Continue
| Return (e : error)
| Proceed (a : A).
Arguments Continue {A}.
Arguments Return {A} e.
Arguments Proceed {A} a.

Section DeepSet.

(** [ref.WorkingSetRefForHead] of package ref, a working-set ref or an
    error. *)
Variable WorkingSetRefForHead : DoltRef -> Result WorkingSetRef.

(** The [switch b.GetType()] of [deepSet]: the rootish to read, as the
    outcome of its [ResolveRootValue], or [None] for the nil interface
    that every other ref type leaves in [rootish]. *)
Definition selectRootish (db : DoltDB) (ws : WorkingSetRef) (b : DoltRef)
    : Step (option (Result RootValue)) :=
  match GetType b with
  | BranchRefType =>
      match WorkingSetRefForHead b with
      | Err e => Return e
      | Ok wsRef =>
          if String.eqb wsRef ws then Continue
          else
            match ResolveWorkingSet db wsRef with
            | Err e =>
                if String.eqb e ErrWorkingSetNotFound then
                  match ResolveCommitRef db b with
                  | Err e => Return e
                  | Ok cm => Proceed (Some (cm_ResolveRootValue cm))
                  end
                else Return e
            | Ok ws => Proceed (Some (ws_ResolveRootValue ws))
            end
      end
  | RemoteRefType =>
      match ResolveCommitRef db b with
      | Err e => Return e
      | Ok cm => Proceed (Some (cm_ResolveRootValue cm))
      end
  | _ => Proceed None
  end.

(** One turn of the loop over [rootRefs]; the loop carries [tableName]
    and [maxAutoInc].  A panic ends the call like a returned error. *)
Definition deepSetRef (db : DoltDB) (ws : WorkingSetRef) (b : DoltRef)
    (st : string * N) : Result (string * N) :=
  let '(tableName, maxAutoInc) := st in
  match selectRootish db ws b with
  | Return e => Err e
  | Continue => Ok st
  | Proceed None => Err nil_dereference
  | Proceed (Some (Err e)) => Err e
  | Proceed (Some (Ok root)) =>
      match GetTableInsensitive root tableName with
      | Err e => Err e
      | Ok None => Ok st
      | Ok (Some table) =>
          match GetSchema table with
          | Err e => Err e
          | Ok sch =>
              if negb (HasAutoIncrement sch) then Ok st
              else
                let tableName := ToLower tableName in
                match GetAutoIncrementValue table with
                | Err e => Err e
                | Ok seq =>
                    if maxAutoInc <? seq then Ok (tableName, seq)
                    else Ok (tableName, maxAutoInc)
                end
          end
      end
  end.

Fixpoint deepSetRefs (db : DoltDB) (ws : WorkingSetRef) (rootRefs : list DoltRef)
    (st : string * N) : Result (string * N) :=
  match rootRefs with
  | [] => Ok st
  | b :: rest =>
      match deepSetRef db ws b st with
      | Err e => Err e
      | Ok st' => deepSetRefs db ws rest st'
      end
  end.

Fixpoint deepSetDbs (ws : WorkingSetRef) (doltdbs : list DoltDB)
    (st : string * N) : Result (string * N) :=
  match doltdbs with
  | [] => Ok st
  | db :: rest =>
      match GetBranches db with
      | Err e => Err e
      | Ok branches =>
          match GetRemoteRefs db with
          | Err e => Err e
          | Ok remotes =>
              let rootRefs := branches ++ remotes in
              match deepSetRefs db ws rootRefs st with
              | Err e => Err e
              | Ok st' => deepSetDbs ws rest st'
              end
          end
      end
  end.

Definition deepSet (ctx : Context) (a : AutoIncrementTracker) (ws : WorkingSetRef)
    (tableName : string) (newAutoIncVal : N) : option error * AutoIncrementTracker :=
  match BaseDatabase ctx (dbName a) with
  | None => (None, a)
  | Some db =>
      if negb (Versioned db) then (None, a)
      else
        match deepSetDbs ws (DoltDatabases db) (tableName, newAutoIncVal) with
        | Err e => (Some e, a)
        | Ok (tableName, maxAutoInc) => (None, set_seq a tableName maxAutoInc)
        end
  end.

(** [Set] of the source; [Set] alone is a reserved word here. *)
Definition Set_ (ctx : Context) (a : AutoIncrementTracker) (ws : WorkingSetRef)
    (tableName : string) (newAutoIncVal : N) : option error * AutoIncrementTracker :=
  let tableName := ToLower tableName in
  let existing := seq_get (sequences a) tableName in
  if existing <? newAutoIncVal
  then (None, set_seq a (ToLower tableName) newAutoIncVal)
  else deepSet ctx a ws tableName newAutoIncVal.

End DeepSet.

End Lowering.

End dsess.

(** ** go/libraries/doltcore/ref: refs as strings *)

Module ref.

(** What a Go call that may panic ends in. *)
Inductive Go (A : Type) : Type :=
| Ret (a : A)
| Panic (msg : string).
Arguments Ret {A} a.
Arguments Panic {A} msg.

(** [s[n:]] without its bounds check, and with it. *)
Fixpoint drop (n : nat) (s : string) : string :=
  match n, s with
  | O, _ => s
  | S n', EmptyString => EmptyString
  | S n', String.String _ r => drop n' r
  end.

Definition slice_out_of_range : string := "slice bounds out of range".

Definition sliceFrom (n : nat) (s : string) : Go string :=
  if (n <=? String.length s)%nat then Ret (drop n s) else Panic slice_out_of_range.

(** Go's [strings.HasPrefix]. *)
Definition HasPrefix (s prefix : string) : bool := String.prefix prefix s.

Definition ErrUnknownRefType : error := "unknown ref type".

Definition refPrefix : string := "refs/".

Definition IsRef (str : string) : bool := HasPrefix str refPrefix.

Definition RefType := string.

Definition InvalidRefType : RefType := "invalid".
Definition BranchRef : RefType := "heads".
Definition RemoteRef : RefType := "remotes".
Definition InternalRef : RefType := "internal".

(** The keys of the map [RefTypes]; a [range] over the map visits them in
    an order of its own, which [Parse] below takes as [order]. *)
Definition RefTypes : list RefType := [BranchRef; RemoteRef; InternalRef].

Definition PrefixForType (refType : RefType) : string :=
  String.append refPrefix refType.

(** The fields [Type] and [Path]. *)
Record DoltRef := mkDoltRef {
  Type_ : RefType;
  Path : string
}.

Definition InvalidRef : DoltRef := mkDoltRef InvalidRefType "".

Definition Equals (dr other : DoltRef) : bool :=
  String.eqb (Type_ dr) (Type_ other) && String.eqb (Path dr) (Path other).

Definition not_of_type (name prefix : string) : string :=
  String.append name (String.append " is a ref that is not of type " prefix).

Definition NewBranchRef (branchName : string) : Go DoltRef :=
  if IsRef branchName then
    let prefix := PrefixForType BranchRef in
    if HasPrefix branchName prefix
    then Ret (mkDoltRef BranchRef (drop (String.length prefix) branchName))
    else Panic (not_of_type branchName prefix)
  else Ret (mkDoltRef BranchRef branchName).

Definition NewRemoteRef (origin name : string) : DoltRef :=
  mkDoltRef RemoteRef (String.append origin (String.append "/" name)).

Definition NewRemoteRefFromPathStr (path : string) : Go DoltRef :=
  let remotesPrefix : string := "remotes/" in
  if IsRef path then
    let prefix := PrefixForType RemoteRef in
    if HasPrefix path prefix
    then Ret (mkDoltRef RemoteRef (drop (String.length prefix) path))
    else Panic (not_of_type path prefix)
  else if HasPrefix path remotesPrefix
  then Ret (mkDoltRef RemoteRef (drop (String.length remotesPrefix) path))
  else Ret (mkDoltRef RemoteRef path).

Definition NewInternalRef (name : string) : Go DoltRef :=
  if IsRef name then
    let prefix := PrefixForType InternalRef in
    if HasPrefix name prefix
    then Ret (mkDoltRef InternalRef (drop (String.length prefix) name))
    else Panic (not_of_type name prefix)
  else Ret (mkDoltRef InternalRef name).

(** The loop of [Parse] over the ref types, in the order the [range]
    visits them. *)
Fixpoint parseLoop (order : list RefType) (str : string)
    : Go (DoltRef * option error) :=
  match order with
  | [] => Ret (InvalidRef, Some ErrUnknownRefType)
  | rType :: rest =>
      let prefix := PrefixForType rType in
      if HasPrefix str prefix then
        match sliceFrom (String.length prefix + 1) str with
        | Panic msg => Panic msg
        | Ret path => Ret (mkDoltRef rType path, None)
        end
      else parseLoop rest str
  end.

Definition Parse (order : list RefType) (str : string)
    : Go (DoltRef * option error) :=
  if negb (IsRef str) then
    match NewBranchRef str with
    | Panic msg => Panic msg
    | Ret r => Ret (r, None)
    end
  else parseLoop order str.

Definition EqualsStr (order : list RefType) (dr : DoltRef) (str : string)
    : Go bool :=
  match Parse order str with
  | Panic msg => Panic msg
  | Ret (_, Some _) => Ret false
  | Ret (other, None) => Ret (Equals dr other)
  end.

(** [DoltRef.String]. *)
Definition String (dr : DoltRef) : string :=
  String.append (PrefixForType (Type_ dr)) (String.append "/" (Path dr)).

(** What [for i, b := range str] yields: the byte index and the rune of
    every character.  A byte below 128 is its own rune, of width 1; the
    rune and the width at any other byte are those of Go's UTF-8 decoder,
    [decode].  [fuel] bounds the number of turns by the length. *)
Fixpoint rangeString (decode : string -> N * nat) (fuel i : nat) (s : string)
    : list (nat * N) :=
  match fuel, s with
  | S fuel', String.String c r =>
      if (N_of_ascii c <? 128)%N
      then (i, N_of_ascii c) :: rangeString decode fuel' (S i) r
      else
        let '(rune, width) := decode s in
        (i, rune) :: rangeString decode fuel' (i + width) (drop width s)
  | _, _ => []
  end.

(** [byte(b)] of a rune: its low eight bits. *)
Definition byte_of_rune (b : N) : ascii := ascii_of_N (b mod 256).

(** The double quote, byte 34. *)
Definition quote : ascii := Eval cbv in ascii_of_N 34.

(** [MarshalJSON]: a buffer of [len(str)+2] zero bytes, the quotes at
    both ends, then one byte written per rune at the index of the rune
    plus one. *)
Definition MarshalJSON (decode : string -> N * nat) (dr : DoltRef) : list ascii :=
  let str := String dr in
  let data := repeat zero (String.length str + 2) in
  let data := <[0%nat := quote]> data in
  let data := <[(String.length str + 1)%nat := quote]> data in
  fold_left (fun data '(i, b) => <[(i + 1)%nat := byte_of_rune b]> data)
    (rangeString decode (String.length str) 0 str) data.

(** [data[1 : len(data)-1]], which panics on fewer than two bytes. *)
Definition innerBytes (data : list ascii) : Go (list ascii) :=
  if (2 <=? length data)%nat
  then Ret (firstn (length data - 2) (skipn 1 data))
  else Panic slice_out_of_range.

(** [UnmarshalJSON]: the ref after the call and the error returned. *)
Definition UnmarshalJSON (order : list RefType) (dr : DoltRef) (data : list ascii)
    : Go (DoltRef * option error) :=
  match innerBytes data with
  | Panic msg => Panic msg
  | Ret inner =>
      match Parse order (string_of_list_ascii inner) with
      | Panic msg => Panic msg
      | Ret (_, Some err) => Ret (dr, Some err)
      | Ret (dref, None) => Ret (mkDoltRef (Type_ dref) (Path dref), None)
      end
  end.

End ref.

(** ** go/cmd/dolt/commands: send-metrics *)

Module commands.

(** What the collaborators of one run answer: [events.AreMetricsDisabled],
    [dEnv.GetUserHomeDir], [dEnv.FS.LockWithTimeout], [egf.FlushEvents]
    (under the 100 ms deadline of its context) and [lck.Unlock]. *)
Record Run := mkRun {
  AreMetricsDisabled : bool * option error;
  GetUserHomeDir : Result string;
  LockWithTimeout : option error;
  FlushEvents : option error;
  Unlock : option error
}.

(** What a run does to the world, in order.  A call of [lck.Unlock] that
    returns nil has released the lock, [Unlocked]; one that returns an
    error is [UnlockFailed], and what became of the lock is not known. *)
Inductive Event :=
| Locked
| Flushed (home : string)
| Unlocked
| UnlockFailed (e : error)
| Logged (e : error).

(** [flockAndFlush]: the error returned and the events; the deferred
    function runs after the flush, whatever the flush returns, and the
    error of [lck.Unlock] is printed to the log and goes no further. *)
Definition flockAndFlush (w : Run) (home : string) : option error * list Event :=
  match LockWithTimeout w with
  | Some err => (Some err, [])
  | None =>
      let deferred :=
        match Unlock w with
        | Some err => [UnlockFailed err; Logged err]
        | None => [Unlocked]
        end in
      match FlushEvents w with
      | Some err => (Some err, [Locked; Flushed home] ++ deferred)
      | None => (None, [Locked; Flushed home] ++ deferred)
      end
  end.

(** [SendMetrics]: the exit code and the events. *)
Definition SendMetrics (w : Run) : Z * list Event :=
  let '(disabled, err) := AreMetricsDisabled w in
  if negb disabled && (if err is None then true else false) then
    match GetUserHomeDir w with
    | Err _ => (1, [])
    | Ok root =>
        match flockAndFlush w root with
        | (Some _, evs) => (2, evs)
        | (None, evs) => (0, evs)
        end
    end
  else if (if err is None then false else true) then (1, [])
  else (0, []).

End commands.

(** ** Sample collaborators, used to run the definitions on concrete inputs *)

Module sample.

(** A collection order that never fails: the shorter collection first. *)
Definition shorter {A : Type} (x y : list A) : Result bool :=
  Ok (length x <? length y)%nat.

Definition cmp : types.Value -> types.Value -> Result Z :=
  types.compareJSON shorter shorter.

(** The float64 values 0, 1 and 7. *)
Definition f0 : spec_float := S754_zero false.
Definition f1 : spec_float := S754_finite false 4503599627370496 (-52).
Definition f7 : spec_float := S754_finite false 7881299347898368 (-50).

(** A writer with one byte for the kind tag and one for a count below
    256, which writes no inner value but null. *)
Definition writeKind (k : types.NomsKind) : Result (list Byte.byte) :=
  Ok [match k with types.JSONDocKind => Byte.x16 | _ => Byte.x00 end].

Definition writeCount (n : N) : list Byte.byte :=
  match Byte.of_N n with Some b => [b] | None => [] end.

Definition writeValue (v : types.Value) : Result (list Byte.byte) :=
  match v with
  | types.Null => writeKind types.NullKind
  | _ => Err "not written"%string
  end.

(** A decoder for documents of one byte of payload: tag and count take a
    byte each, and the payload byte [n] reads as the string of length 1
    holding it, except 0, which reads as null. *)
Definition skipByte (bs : list Byte.byte) : list Byte.byte := tl bs.

Definition readValue (bs : list Byte.byte) : Result types.Value :=
  match bs with
  | [Byte.x00] => Ok types.Null
  | [b] => Ok (types.String (String.String (ascii_of_byte b) EmptyString))
  | _ => Err "truncated"%string
  end.

Definition kindNumber (k : types.NomsKind) : N :=
  match k with
  | types.BoolKind => 0 | types.FloatKind => 1 | types.StringKind => 2
  | types.ListKind => 4 | types.MapKind => 5 | types.IntKind => 15
  | types.UintKind => 16 | types.NullKind => 17 | types.JSONDocKind => 22
  end%N.

Definition docOf (b : Byte.byte) : types.JSONDoc :=
  types.mkJSONDoc [Byte.x16; Byte.x01; b] [].

(** A rune decoder that takes every byte for a rune of width 1. *)
Definition decodeByte (s : string) : N * nat :=
  match s with
  | EmptyString => (65533%N, 1%nat)
  | String.String c _ => (N_of_ascii c, 1%nat)
  end.

Definition less : types.JSONDoc -> types.LesserValuable -> Result bool :=
  types.Less shorter shorter skipByte skipByte readValue kindNumber.

(** A converter to uint64 that takes nil, a uint64 and a non-negative
    int64, and refuses everything else; rounding that keeps its argument. *)
Definition convert (v : dsess.GoValue) : Result (option N) :=
  match v with
  | dsess.go_nil => Ok None
  | dsess.go_uint64 u => Ok (Some u)
  | dsess.go_int64 i =>
      if (i <? 0)%Z then Err "out of range"%string else Ok (Some (Z.to_N i))
  | _ => Err "not a number"%string
  end.

Definition round (f : spec_float) : spec_float := f.

(** The letter E with an acute accent in UTF-8, upper case (C3 89) and
    lower case (C3 A9), and a lowering of runs that knows this one letter
    and keeps every other run. *)
Definition upperE : string :=
  Eval cbv in String.String (ascii_of_N 195) (String.String (ascii_of_N 137) EmptyString).

Definition lowerE : string :=
  Eval cbv in String.String (ascii_of_N 195) (String.String (ascii_of_N 169) EmptyString).

Definition lowerRun (run : string) : string :=
  if String.eqb run upperE then lowerE else run.

Definition next := dsess.Next lowerRun round convert.

(** A table with an AUTO_INCREMENT column whose persisted value is [n],
    and a root holding it under the name [name]. *)
Definition autoTable (n : N) : dsess.Table :=
  dsess.mkTable (Ok (dsess.mkSchema true)) (Ok n).

Definition rootWith (name : string) (n : N) : dsess.RootValue :=
  dsess.mkRootValue
    [Ok (name, autoTable n, dsess.mkSchema true)]
    (fun k => if String.eqb (dsess.ToLower lowerRun k) (dsess.ToLower lowerRun name)
              then Ok (Some (autoTable n)) else Ok None).

Definition emptyRoot : dsess.RootValue :=
  dsess.mkRootValue [] (fun _ => Ok None).

(** A root whose every lookup fails, as under a cancelled context. *)
Definition cancelled : error := "context canceled"%string.

Definition failingRoot : dsess.RootValue :=
  dsess.mkRootValue [Err cancelled] (fun _ => Err cancelled).

Definition workingSet (r : dsess.RootValue) : dsess.WorkingSet :=
  dsess.mkWorkingSet r (Ok r).

(** A tracker of database [db] with one counter. *)
Definition trackerWith (name : string) (n : N) : dsess.AutoIncrementTracker :=
  dsess.mkTracker "db" {[ name := n ]}.

Definition emptyTracker : dsess.AutoIncrementTracker := dsess.mkTracker "db" ∅.

(** A tracker with the counters of two tables. *)
Definition trackerTwo (n m : N) : dsess.AutoIncrementTracker :=
  dsess.mkTracker "db" (<["u" := m]> {[ "t" := n ]}).

(** A registry with one database holding the branches [main] and
    [feature]; the working set of [main] has table [t] at [onMain], the
    head of [feature], which has no working set, has it at [onFeature]. *)
Definition wsRefForHead (b : dsess.DoltRef) : Result dsess.WorkingSetRef :=
  Ok (String.append "workingSets/heads/" (dsess.GetPath b)).

Definition mainRef : dsess.DoltRef := dsess.mkDoltRef dsess.BranchRefType "main".
Definition featureRef : dsess.DoltRef := dsess.mkDoltRef dsess.BranchRefType "feature".

Definition registry (onMain : dsess.RootValue) (onFeature : Result dsess.RootValue)
    : dsess.Context :=
  dsess.mkContext (fun name =>
    if String.eqb name "db" then
      Some (dsess.mkSqlDatabase true
        [dsess.mkDoltDB (Ok [mainRef; featureRef]) (Ok [])
           (fun r => if String.eqb r "workingSets/heads/main"
                     then Ok (workingSet onMain)
                     else Err dsess.ErrWorkingSetNotFound)
           (fun _ => Ok (dsess.mkCommit onFeature))])
    else None).

End sample.

(** ** Notions the statements are phrased with *)

Module spec.

(** The precedence of a JSON value's type, lowest first, as the
    comparator's cross-type answers arrange them. *)
Definition precedence (v : types.Value) : Z :=
  match v with
  | types.Null => 0
  | types.Float _ => 1
  | types.String _ => 2
  | types.Map _ => 3
  | types.List _ => 4
  | types.Bool _ => 5
  | _ => 6
  end.

(** The three-way answer both container comparators build from a [Less]
    method. *)
Definition threeway {A : Type} (less : A -> A -> Result bool) (a b : A) : Result Z :=
  match less a b with
  | Err e => Err e
  | Ok aLess =>
      if aLess then Ok (-1)
      else match less b a with
           | Err e => Err e
           | Ok bLess => if bLess then Ok 1 else Ok 0
           end
  end.

(** A [Less] method that never fails and is a strict weak order. *)
Record StrictWeak {A : Type} (less : A -> A -> Result bool) : Prop := {
  less_total : forall x y, exists r, less x y = Ok r;
  less_asym : forall x y, less x y = Ok true -> less y x = Ok false;
  less_negtrans : forall x y z,
      less x y = Ok false -> less y z = Ok false -> less x z = Ok false
}.

(** Two bytes that are equal or differ only in the case of a letter. *)
Definition sameLetter (c1 c2 : ascii) : bool :=
  Ascii.eqb c1 c2
  || (dsess.isUpper c1 && Ascii.eqb (dsess.toLowerByte c1) c2)
  || (dsess.isUpper c2 && Ascii.eqb (dsess.toLowerByte c2) c1).

(** Names equal up to ASCII case. *)
Fixpoint equalFold (s1 s2 : string) : bool :=
  match s1, s2 with
  | EmptyString, EmptyString => true
  | String.String c1 r1, String.String c2 r2 => sameLetter c1 c2 && equalFold r1 r2
  | _, _ => false
  end.

(** The JSON values on which an answer of 0 means the same value: null,
    the booleans and the strings. *)
Definition isExact (v : types.Value) : bool :=
  match v with
  | types.Null | types.Bool _ | types.String _ => true
  | _ => false
  end.

(** The locks known to be held after a sequence of events, starting from
    [held]: only an [Unlock] that returned nil releases one. *)
Fixpoint locksHeld (evs : list commands.Event) (held : nat) : nat :=
  match evs with
  | [] => held
  | commands.Locked :: rest => locksHeld rest (S held)
  | commands.Unlocked :: rest => locksHeld rest (Nat.pred held)
  | _ :: rest => locksHeld rest held
  end.

(** The locks taken in a sequence of events, and the calls of [Unlock]
    made, whatever they returned. *)
Fixpoint locksTaken (evs : list commands.Event) : nat :=
  match evs with
  | [] => 0
  | commands.Locked :: rest => S (locksTaken rest)
  | _ :: rest => locksTaken rest
  end.

Fixpoint unlockCalls (evs : list commands.Event) : nat :=
  match evs with
  | [] => 0
  | commands.Unlocked :: rest => S (unlockCalls rest)
  | commands.UnlockFailed _ :: rest => S (unlockCalls rest)
  | _ :: rest => unlockCalls rest
  end.

(** The run [w] with another answer of [lck.Unlock]. *)
Definition withUnlock (w : commands.Run) (u : option error) : commands.Run :=
  commands.mkRun (commands.AreMetricsDisabled w) (commands.GetUserHomeDir w)
    (commands.LockWithTimeout w) (commands.FlushEvents w) u.

(** Every flush of a sequence of events happens with the lock held. *)
Fixpoint flushesUnderLock (evs : list commands.Event) (held : nat) : bool :=
  match evs with
  | [] => true
  | commands.Locked :: rest => flushesUnderLock rest (S held)
  | commands.Unlocked :: rest => flushesUnderLock rest (Nat.pred held)
  | commands.Flushed _ :: rest => (0 <? held)%nat && flushesUnderLock rest held
  | _ :: rest => flushesUnderLock rest held
  end.

(** A string of bytes below 128. *)
Fixpoint isASCII (s : string) : bool :=
  match s with
  | EmptyString => true
  | String.String c r => (N_of_ascii c <? 128)%N && isASCII r
  end.

(** The ASCII rule of lowercasing applied to every byte of a string. *)
Fixpoint foldASCII (s : string) : string :=
  match s with
  | EmptyString => EmptyString
  | String.String c r => String.String (dsess.toLowerByte c) (foldASCII r)
  end.

(** A document whose inner value decodes to a legal JSON value. *)
Definition holdsJSON (inner : types.JSONDoc -> Result types.Value)
    (d : types.JSONDoc) : Prop :=
  exists v, inner d = Ok v /\ types.isJSON v = true.

(** What [IterTables] meets in one root, in order: the lowercased name and
    the persisted value of every table whose schema has an AUTO_INCREMENT
    column, or the first error of a read. *)
Fixpoint rootReadings (lowerRun : string -> string)
    (entries : list (Result (string * dsess.Table * dsess.Schema)))
    : Result (list (string * N)) :=
  match entries with
  | [] => Ok []
  | Err e :: _ => Err e
  | Ok (name, table, sch) :: rest =>
      if dsess.HasAutoIncrement sch then
        match dsess.GetAutoIncrementValue table with
        | Err e => Err e
        | Ok seq =>
            match rootReadings lowerRun rest with
            | Err e => Err e
            | Ok l => Ok ((dsess.ToLower lowerRun name, seq) :: l)
            end
        end
      else rootReadings lowerRun rest
  end.

(** The same over all the roots supplied, a failed [ResolveRootValue]
    counting as a failed read. *)
Fixpoint readings (lowerRun : string -> string) (roots : list dsess.Rootish)
    : Result (list (string * N)) :=
  match roots with
  | [] => Ok []
  | r :: rest =>
      match dsess.ResolveRootValue r with
      | Err e => Err e
      | Ok root =>
          match rootReadings lowerRun (dsess.tables root) with
          | Err e => Err e
          | Ok l =>
              match readings lowerRun rest with
              | Err e => Err e
              | Ok l' => Ok (l ++ l')
              end
          end
      end
  end.

(** The maximum of the values read under the name [key], 0 when there is
    none. *)
Fixpoint maxFor (key : string) (l : list (string * N)) : N :=
  match l with
  | [] => 0%N
  | (k, v) :: rest =>
      if String.eqb k key then N.max v (maxFor key rest) else maxFor key rest
  end.

(** [Next] called [n] times in a row on the same table with the same
    insert value: the answers, in order, and the tracker left. *)
Fixpoint repeatNext (lowerRun : string -> string)
    (math_Round : spec_float -> spec_float)
    (Uint64_Convert : dsess.GoValue -> Result (option N))
    (n : nat) (a : dsess.AutoIncrementTracker) (t : string) (v : dsess.GoValue)
    : list (Result N) * dsess.AutoIncrementTracker :=
  match n with
  | O => ([], a)
  | S n' =>
      let r := dsess.Next lowerRun math_Round Uint64_Convert a t v in
      let rs := repeatNext lowerRun math_Round Uint64_Convert n' r.2 t v in
      (r.1 :: rs.1, rs.2)
  end.

(** What [DropTable] reads, in order: the persisted value of the table
    named in every working set that has it with an AUTO_INCREMENT column,
    or the first error of a read. *)
Fixpoint dropReadings (wses : list dsess.WorkingSet) (name : string)
    : Result (list N) :=
  match wses with
  | [] => Ok []
  | ws :: rest =>
      match dsess.GetTableInsensitive (dsess.WorkingRoot ws) name with
      | Err e => Err e
      | Ok None => dropReadings rest name
      | Ok (Some table) =>
          match dsess.GetSchema table with
          | Err e => Err e
          | Ok sch =>
              if dsess.HasAutoIncrement sch then
                match dsess.GetAutoIncrementValue table with
                | Err e => Err e
                | Ok seq =>
                    match dropReadings rest name with
                    | Err e => Err e
                    | Ok l => Ok (seq :: l)
                    end
                end
              else dropReadings rest name
          end
      end
  end.

(** Two databases that answer alike except, possibly, when asked to
    resolve the working set [ws]. *)
Definition agreeOff (ws : dsess.WorkingSetRef) (d d' : dsess.DoltDB) : Prop :=
  dsess.GetBranches d = dsess.GetBranches d'
  /\ dsess.GetRemoteRefs d = dsess.GetRemoteRefs d'
  /\ (forall b, dsess.ResolveCommitRef d b = dsess.ResolveCommitRef d' b)
  /\ (forall r, r <> ws -> dsess.ResolveWorkingSet d r = dsess.ResolveWorkingSet d' r).

(** The largest of 1 and the values of a list. *)
Definition maxFrom1 (l : list N) : N := fold_right N.max 1%N l.

(** A result that is an answer at or below zero. *)
Definition at_most_zero (r : Result Z) : Prop :=
  exists z, r = Ok z /\ z <= 0.

End spec.

(** * Facts about the comparator *)

(** ** Order lemmas on floats and strings *)

Lemma SFcompare_antisym (a b : spec_float) :
  SFcompare b a = option_map CompOpp (SFcompare a b).
Proof.
  destruct a as [sa|sa| |sa ma ea], b as [sb|sb| |sb mb eb]; simpl;
    try reflexivity;
    try (destruct sa; reflexivity); try (destruct sb; reflexivity);
    try (destruct sa, sb; reflexivity).
  destruct sa, sb; simpl; try reflexivity;
    rewrite (Z.compare_antisym ea eb);
    change (Pos.compare_cont Eq mb ma) with (Pos.compare mb ma);
    change (Pos.compare_cont Eq ma mb) with (Pos.compare ma mb);
    rewrite (Pos.compare_antisym ma mb);
    destruct (ea ?= eb)%Z; simpl; try reflexivity;
    destruct (ma ?= mb)%positive; reflexivity.
Qed.

Lemma float_lt_asym (a b : spec_float) :
  types.float_lt a b = true -> types.float_lt b a = false.
Proof.
  unfold types.float_lt, SFltb. rewrite (SFcompare_antisym a b).
  destruct (SFcompare a b) as [[]|]; simpl; congruence.
Qed.

(** Among numbers, "not above" is transitive through a middle value that
    is not a NaN. *)
Lemma float_not_gt_trans (a b c : spec_float) :
  b <> S754_nan ->
  types.float_gt a b = false -> types.float_gt b c = false ->
  types.float_gt a c = false.
Proof.
  unfold types.float_gt, SFltb. intros Hb.
  destruct a as [sa|sa| |sa ma ea], b as [sb|sb| |sb mb eb],
           c as [sc|sc| |sc mc ec]; simpl; try congruence;
    try (destruct sa; simpl; congruence);
    try (destruct sb; simpl; congruence);
    try (destruct sc; simpl; congruence);
    try (destruct sa, sb; simpl; congruence);
    try (destruct sa, sc; simpl; congruence);
    try (destruct sb, sc; simpl; congruence);
    try (destruct sa, sb, sc; simpl; congruence).
  destruct sa, sb, sc; simpl; try congruence;
    change (Pos.compare_cont Eq) with Pos.compare;
    destruct (Z.compare_spec ec eb), (Z.compare_spec eb ea),
             (Z.compare_spec ec ea); subst; simpl; try congruence; try lia;
    destruct (Pos.compare_spec mc mb), (Pos.compare_spec mb ma),
             (Pos.compare_spec mc ma); subst; simpl; try congruence; try lia.
Qed.

Lemma string_compare_not_gt_trans (a : string) :
  forall b c : string,
    String.compare a b <> Gt -> String.compare b c <> Gt ->
    String.compare a c <> Gt.
Proof.
  induction a as [|x a IH]; intros [|y b] [|z c]; simpl; try congruence.
  unfold Ascii.compare.
  destruct (N.compare_spec (N_of_ascii x) (N_of_ascii y)) as [Hxy|Hxy|Hxy],
           (N.compare_spec (N_of_ascii y) (N_of_ascii z)) as [Hyz|Hyz|Hyz],
           (N.compare_spec (N_of_ascii x) (N_of_ascii z)) as [Hxz|Hxz|Hxz];
    try congruence; try lia.
  apply IH.
Qed.

Lemma strings_Compare_antisym (a b : string) :
  types.strings_Compare b a = (- types.strings_Compare a b)%Z.
Proof.
  unfold types.strings_Compare. rewrite (String.compare_antisym a b).
  destruct (String.compare b a); reflexivity.
Qed.

Lemma strings_Compare_trans (a b c : string) :
  (types.strings_Compare a b <= 0)%Z -> (types.strings_Compare b c <= 0)%Z ->
  (types.strings_Compare a c <= 0)%Z.
Proof.
  unfold types.strings_Compare. intros Hab Hbc.
  assert (H : String.compare a c <> Gt).
  { apply (string_compare_not_gt_trans a b c).
    - destruct (String.compare a b); [congruence | congruence | lia].
    - destruct (String.compare b c); [congruence | congruence | lia]. }
  destruct (String.compare a c); [lia | lia | congruence].
Qed.

Lemma strings_Compare_range (a b : string) :
  types.strings_Compare a b = (-1)%Z \/ types.strings_Compare a b = 0%Z
  \/ types.strings_Compare a b = 1%Z.
Proof. unfold types.strings_Compare. destruct (String.compare a b); auto. Qed.

(** ** The three-way answer built from a [Less] method *)

Section Threeway.

Context {A : Type} (less : A -> A -> Result bool).
Hypothesis less_ok : spec.StrictWeak less.

Lemma threeway_defined (a b : A) :
  exists z, spec.threeway less a b = Ok z /\ (z = -1 \/ z = 0 \/ z = 1)%Z.
Proof.
  unfold spec.threeway.
  destruct (spec.less_total less less_ok a b) as [[|] ->].
  - exists (-1)%Z. auto.
  - destruct (spec.less_total less less_ok b a) as [[|] ->];
      [exists 1%Z | exists 0%Z]; auto.
Qed.

Lemma threeway_antisym (a b : A) (z : Z) :
  spec.threeway less a b = Ok z -> spec.threeway less b a = Ok (- z)%Z.
Proof.
  unfold spec.threeway.
  destruct (less a b) as [[|]|] eqn:Hab; try discriminate.
  - intros [= <-]. rewrite (spec.less_asym less less_ok a b Hab). reflexivity.
  - destruct (less b a) as [[|]|] eqn:Hba; try discriminate;
      intros [= <-]; reflexivity.
Qed.

Lemma threeway_at_most_zero (a b : A) :
  spec.at_most_zero (spec.threeway less a b) <-> less b a = Ok false.
Proof.
  unfold spec.at_most_zero, spec.threeway. split.
  - intros (z & Hz & Hle).
    destruct (less a b) as [[|]|] eqn:Hab; try discriminate.
    + apply (spec.less_asym less less_ok a b Hab).
    + destruct (less b a) as [[|]|]; try discriminate; [|reflexivity].
      injection Hz as <-. lia.
  - intros Hba. rewrite Hba.
    destruct (spec.less_total less less_ok a b) as [[|] ->];
      [exists (-1)%Z | exists 0%Z]; split; auto; lia.
Qed.

Lemma threeway_trans (a b c : A) :
  spec.at_most_zero (spec.threeway less a b) ->
  spec.at_most_zero (spec.threeway less b c) ->
  spec.at_most_zero (spec.threeway less a c).
Proof.
  rewrite !threeway_at_most_zero. intros Hba Hcb.
  apply (spec.less_negtrans less less_ok c b a Hcb Hba).
Qed.

End Threeway.

(** ** The comparator *)

Lemma shorter_StrictWeak (A : Type) : spec.StrictWeak (@sample.shorter A).
Proof.
  unfold sample.shorter. split.
  - intros x y. eexists. reflexivity.
  - intros x y [= H]. f_equal. apply Nat.ltb_lt in H. apply Nat.ltb_ge. lia.
  - intros x y z [= Hxy] [= Hyz]. f_equal.
    apply Nat.ltb_ge in Hxy, Hyz. apply Nat.ltb_ge. lia.
Qed.

Section ComparatorFacts.

Variable List_Less : list types.Value -> list types.Value -> Result bool.
Variable Map_Less :
  list (types.Value * types.Value) -> list (types.Value * types.Value) -> Result bool.

Local Abbreviation cmp := (types.compareJSON List_Less Map_Less).

(** Values of different JSON types are ordered by [spec.precedence]. *)
Lemma compareJSON_cross (a b : types.Value) :
  types.isJSON a = true -> types.isJSON b = true ->
  (spec.precedence a < spec.precedence b)%Z ->
  cmp a b = Ok (-1)%Z /\ cmp b a = Ok 1%Z.
Proof.
  destruct a, b; simpl; intros Ha Hb Hlt;
    try discriminate; try lia; split; reflexivity.
Qed.

Lemma compareJSON_number_number (x y : spec_float) :
  cmp (types.Float x) (types.Float y)
  = if types.float_lt y x then Ok 1%Z
    else if types.float_lt x y then Ok (-1)%Z else Ok 0%Z.
Proof. reflexivity. Qed.

Lemma compareJSON_number_antisym (x y : spec_float) :
  exists z, cmp (types.Float x) (types.Float y) = Ok z
            /\ (z = -1 \/ z = 0 \/ z = 1)%Z
            /\ cmp (types.Float y) (types.Float x) = Ok (- z)%Z.
Proof.
  rewrite !compareJSON_number_number.
  destruct (types.float_lt y x) eqn:Hyx.
  - rewrite (float_lt_asym y x Hyx). exists 1%Z. auto.
  - destruct (types.float_lt x y); [exists (-1)%Z | exists 0%Z]; auto.
Qed.

Lemma compareJSON_number_at_most_zero (x y : spec_float) :
  spec.at_most_zero (cmp (types.Float x) (types.Float y))
  <-> types.float_gt x y = false.
Proof.
  unfold spec.at_most_zero. rewrite compareJSON_number_number.
  change (types.float_gt x y) with (types.float_lt y x). split.
  - intros (z & Hz & Hle). destruct (types.float_lt y x); [|reflexivity].
    injection Hz as <-. lia.
  - intros ->. destruct (types.float_lt x y);
      [exists (-1)%Z | exists 0%Z]; split; auto; lia.
Qed.

(** An answer at or below zero never goes down the precedence ladder. *)
Lemma compareJSON_at_most_zero_precedence (a b : types.Value) :
  types.isJSON a = true -> types.isJSON b = true ->
  spec.at_most_zero (cmp a b) ->
  (spec.precedence a <= spec.precedence b)%Z.
Proof.
  intros Ha Hb (z & Hz & Hle).
  destruct (Z.le_gt_cases (spec.precedence a) (spec.precedence b)) as [H|H];
    [exact H|].
  destruct (compareJSON_cross b a Hb Ha) as [_ H1]; [lia|].
  rewrite H1 in Hz. injection Hz as <-. lia.
Qed.

Hypothesis List_Less_ok : spec.StrictWeak List_Less.
Hypothesis Map_Less_ok : spec.StrictWeak Map_Less.

Lemma compareJSON_defined_antisym (a b : types.Value) :
  types.isJSON a = true -> types.isJSON b = true ->
  exists z, cmp a b = Ok z /\ (z = -1 \/ z = 0 \/ z = 1)%Z
            /\ cmp b a = Ok (- z)%Z.
Proof.
  intros Ha Hb.
  destruct (Z.lt_trichotomy (spec.precedence a) (spec.precedence b))
    as [H|[H|H]].
  - destruct (compareJSON_cross a b Ha Hb H) as [-> ->]. exists (-1)%Z. auto.
  - destruct a as [|x|x|x|x|x|x|x], b as [|y|y|y|y|y|y|y];
      simpl in H, Ha, Hb; try discriminate; try lia.
    + exists 0%Z. auto.
    + destruct x, y; eexists; (split; [reflexivity|]); split; auto.
    + apply compareJSON_number_antisym.
    + exists (types.strings_Compare x y).
      change (cmp (types.String x) (types.String y))
        with (Ok (A:=Z) (types.strings_Compare x y)).
      change (cmp (types.String y) (types.String x))
        with (Ok (A:=Z) (types.strings_Compare y x)).
      rewrite (strings_Compare_antisym x y).
      auto using strings_Compare_range.
    + destruct (threeway_defined List_Less List_Less_ok x y) as (z & Hz & Hr).
      exists z.
      change (cmp (types.List x) (types.List y))
        with (spec.threeway List_Less x y).
      change (cmp (types.List y) (types.List x))
        with (spec.threeway List_Less y x).
      auto using threeway_antisym.
    + destruct (threeway_defined Map_Less Map_Less_ok x y) as (z & Hz & Hr).
      exists z.
      change (cmp (types.Map x) (types.Map y))
        with (spec.threeway Map_Less x y).
      change (cmp (types.Map y) (types.Map x))
        with (spec.threeway Map_Less y x).
      auto using threeway_antisym.
  - destruct (compareJSON_cross b a Hb Ha) as [-> ->]; [lia|]. exists 1%Z. auto.
Qed.

Lemma compareJSON_trans_through (a b c : types.Value) :
  types.isJSON a = true -> types.isJSON b = true -> types.isJSON c = true ->
  types.isNaN b = false ->
  spec.at_most_zero (cmp a b) -> spec.at_most_zero (cmp b c) ->
  spec.at_most_zero (cmp a c).
Proof.
  intros Ha Hb Hc Hnan Hab Hbc.
  pose proof (compareJSON_at_most_zero_precedence a b Ha Hb Hab) as Pab.
  pose proof (compareJSON_at_most_zero_precedence b c Hb Hc Hbc) as Pbc.
  destruct (Z.eq_dec (spec.precedence a) (spec.precedence c)) as [Pac|Pac].
  - destruct a as [|x|x|x|x|x|x|x], b as [|y|y|y|y|y|y|y],
             c as [|z|z|z|z|z|z|z];
      simpl in Pab, Pbc, Pac, Ha, Hb, Hc; try discriminate; try lia.
    + exact Hab.
    + destruct x, y, z; try exact Hab; try exact Hbc;
        exists 0%Z; (split; [reflexivity | lia]).
    + apply compareJSON_number_at_most_zero.
      apply compareJSON_number_at_most_zero in Hab, Hbc.
      apply (float_not_gt_trans x y z); auto.
      intros ->. discriminate.
    + destruct Hab as (r1 & [= <-] & H1), Hbc as (r2 & [= <-] & H2).
      exists (types.strings_Compare x z). split; [reflexivity|].
      apply (strings_Compare_trans x y z); assumption.
    + apply (threeway_trans List_Less List_Less_ok x y z); assumption.
    + apply (threeway_trans Map_Less Map_Less_ok x y z); assumption.
  - destruct (compareJSON_cross a c Ha Hc) as [H _]; [lia|].
    exists (-1)%Z. split; [exact H | lia].
Qed.

End ComparatorFacts.

(** C1 (as the code has it): the comparator orders values of different
    types by the ladder Null < Number < String < Object < Array < Bool,
    which [spec.precedence] numbers from 0 to 5: of two legal JSON values
    of different types, the one lower on the ladder answers -1 against
    the other, and the other answers +1 against it.  So for every Bool
    [b], Array [a] and Object [o], [compareJSON b a = +1] and
    [compareJSON a o = +1], symmetrically [compareJSON a b = -1] and
    [compareJSON o a = -1], while [compareJSON Null b = -1]. *)
Theorem compareJSON_precedence
    (List_Less : list types.Value -> list types.Value -> Result bool)
    (Map_Less : list (types.Value * types.Value) ->
                list (types.Value * types.Value) -> Result bool)
    (b : bool) (a : list types.Value) (o : list (types.Value * types.Value)) :
  (forall x y : types.Value,
     types.isJSON x = true -> types.isJSON y = true ->
     (spec.precedence x < spec.precedence y)%Z ->
     types.compareJSON List_Less Map_Less x y = Ok (-1)%Z
     /\ types.compareJSON List_Less Map_Less y x = Ok 1%Z)
  /\ (forall (n : spec_float) (s : string),
        spec.precedence types.Null = 0%Z
        /\ spec.precedence (types.Float n) = 1%Z
        /\ spec.precedence (types.String s) = 2%Z
        /\ spec.precedence (types.Map o) = 3%Z
        /\ spec.precedence (types.List a) = 4%Z
        /\ spec.precedence (types.Bool b) = 5%Z)
  /\ types.compareJSON List_Less Map_Less (types.Bool b) (types.List a) = Ok 1%Z
  /\ types.compareJSON List_Less Map_Less (types.List a) (types.Bool b) = Ok (-1)%Z
  /\ types.compareJSON List_Less Map_Less (types.List a) (types.Map o) = Ok 1%Z
  /\ types.compareJSON List_Less Map_Less (types.Map o) (types.List a) = Ok (-1)%Z
  /\ types.compareJSON List_Less Map_Less types.Null (types.Bool b) = Ok (-1)%Z.
Proof.
  split; [|repeat split; reflexivity].
  intros x y Hx Hy Hlt. apply compareJSON_cross; assumption.
Qed.

(** C1 fails as stated: with [B = true], [A = [1]] and [O = {"k":1}] the
    comparator answers +1, not -1, for [(B, A)] and for [(A, O)]. *)
Lemma compareJSON_Bool_Array_Object_counterexample :
  sample.cmp (types.Bool true) (types.List [types.Float sample.f1]) <> Ok (-1)%Z
  /\ sample.cmp (types.List [types.Float sample.f1])
       (types.Map [(types.String "k", types.Float sample.f1)]) <> Ok (-1)%Z.
Proof. split; discriminate. Qed.

(** C9: every Number is strictly below every String:
    [compareJSON n s = -1] and [compareJSON s n = +1]. *)
Theorem compareJSON_Number_below_String
    (List_Less : list types.Value -> list types.Value -> Result bool)
    (Map_Less : list (types.Value * types.Value) ->
                list (types.Value * types.Value) -> Result bool)
    (n : spec_float) (s : string) :
  types.compareJSON List_Less Map_Less (types.Float n) (types.String s) = Ok (-1)%Z
  /\ types.compareJSON List_Less Map_Less (types.String s) (types.Float n) = Ok 1%Z.
Proof. split; reflexivity. Qed.

(** C5 (as the code has it): when the [Less] methods of lists and maps
    never fail and are strict weak orders, then on legal JSON values
    [compareJSON] returns no error, answers -1, 0 or +1, satisfies
    [compareJSON a b = - compareJSON b a] (NaN floats included), and is
    transitive through every middle value [b] that is not a NaN float:
    [compareJSON a b <= 0] and [compareJSON b c <= 0] give
    [compareJSON a c <= 0]. *)
Theorem compareJSON_order
    (List_Less : list types.Value -> list types.Value -> Result bool)
    (Map_Less : list (types.Value * types.Value) ->
                list (types.Value * types.Value) -> Result bool)
    (HL : spec.StrictWeak List_Less) (HM : spec.StrictWeak Map_Less)
    (a b c : types.Value)
    (Ha : types.isJSON a = true) (Hb : types.isJSON b = true)
    (Hc : types.isJSON c = true) :
  (exists z, types.compareJSON List_Less Map_Less a b = Ok z
             /\ (z = -1 \/ z = 0 \/ z = 1)%Z
             /\ types.compareJSON List_Less Map_Less b a = Ok (- z)%Z)
  /\ (types.isNaN b = false ->
      spec.at_most_zero (types.compareJSON List_Less Map_Less a b) ->
      spec.at_most_zero (types.compareJSON List_Less Map_Less b c) ->
      spec.at_most_zero (types.compareJSON List_Less Map_Less a c)).
Proof.
  split.
  - apply compareJSON_defined_antisym; assumption.
  - apply compareJSON_trans_through; assumption.
Qed.

Lemma compareJSON_order_witness :
  (exists z, sample.cmp (types.Float sample.f1) (types.Float sample.f7) = Ok z
             /\ (z = -1 \/ z = 0 \/ z = 1)%Z
             /\ sample.cmp (types.Float sample.f7) (types.Float sample.f1) = Ok (- z)%Z)
  /\ spec.at_most_zero
       (sample.cmp (types.Float sample.f1) (types.List [types.Float sample.f1])).
Proof.
  destruct (compareJSON_order sample.shorter sample.shorter
              (shorter_StrictWeak _) (shorter_StrictWeak _)
              (types.Float sample.f1) (types.Float sample.f7)
              (types.List [types.Float sample.f1])
              eq_refl eq_refl eq_refl) as [H1 H2].
  split; [exact H1|].
  apply H2; [reflexivity| |]; exists (-1)%Z; (split; [reflexivity|]);
    intros H; discriminate H.
Defined.

(** C5 fails as stated: 1.0, NaN, 0.0 are legal values with
    [compareJSON 1.0 NaN = 0] and [compareJSON NaN 0.0 = 0], yet
    [compareJSON 1.0 0.0 = +1]. *)
Lemma compareJSON_NaN_counterexample :
  types.is_float64 sample.f1 = true /\ types.is_float64 sample.f0 = true
  /\ sample.cmp (types.Float sample.f1) (types.Float S754_nan) = Ok 0%Z
  /\ sample.cmp (types.Float S754_nan) (types.Float sample.f0) = Ok 0%Z
  /\ sample.cmp (types.Float sample.f1) (types.Float sample.f0) = Ok 1%Z
  /\ ~ spec.at_most_zero (sample.cmp (types.Float sample.f1) (types.Float sample.f0)).
Proof.
  repeat split; try reflexivity.
  intros (z & Hz & Hle). injection Hz as <-. apply Hle. reflexivity.
Qed.

(** ** The JSON document *)

Example sample_floats_are_float64 :
  types.is_float64 sample.f0 = true /\ types.is_float64 sample.f1 = true
  /\ types.is_float64 sample.f7 = true /\ types.is_float64 S754_nan = true.
Proof. repeat split. Qed.

(** C6: [Len] is 1 for every JSON document, whatever its bytes. *)
Theorem Len_is_one (d : types.JSONDoc) : types.Len d = 1%N.
Proof. reflexivity. Qed.

(** C2 (what the code does): [Empty] compares [Len], which is constantly
    1, with 0, so it answers false for every document, the empty one
    included. *)
Theorem Empty_is_false (d : types.JSONDoc) : types.Empty d = false.
Proof. reflexivity. Qed.

(** The empty document and the document of null, as the sample writer
    lays them out: both have length 1 and neither is [Empty]. *)
Example Empty_of_EmptyJSONDoc :
  exists d,
    types.EmptyJSONDoc sample.writeKind sample.writeCount = Ok d
    /\ types.buff d = [Byte.x16; Byte.x00]
    /\ types.Len d = 1%N /\ types.Empty d = false.
Proof. eexists. repeat split. Qed.

Example Empty_of_NewJSONDoc_Null :
  exists d,
    types.NewJSONDoc sample.writeKind sample.writeCount sample.writeValue types.Null
    = (Ok d, None)
    /\ types.buff d = [Byte.x16; Byte.x01; Byte.x00]
    /\ types.Len d = 1%N /\ types.Empty d = false.
Proof. eexists. repeat split. Qed.

(** * Facts about the tracker *)

(** ** Reading the map *)

Lemma seq_get_insert_eq (m : gmap string N) (k : string) (v : N) :
  dsess.seq_get (<[k := v]> m) k = v.
Proof. unfold dsess.seq_get. rewrite lookup_insert_eq. reflexivity. Qed.

Lemma seq_get_insert_ne (m : gmap string N) (k k' : string) (v : N) :
  k <> k' -> dsess.seq_get (<[k := v]> m) k' = dsess.seq_get m k'.
Proof. intros H. unfold dsess.seq_get. rewrite lookup_insert_ne; auto. Qed.

Lemma seq_get_None (m : gmap string N) (k : string) :
  m !! k = None -> dsess.seq_get m k = 0%N.
Proof. unfold dsess.seq_get. intros ->. reflexivity. Qed.

Lemma seq_get_empty (k : string) : dsess.seq_get ∅ k = 0%N.
Proof. apply seq_get_None, lookup_empty. Qed.

Lemma incr_small (x : N) :
  (x + 1 < dsess.uint64_modulus)%N -> dsess.incr x = (x + 1)%N.
Proof. intros H. unfold dsess.incr. apply N.mod_small, H. Qed.

(** ** Case folding *)

Lemma toLowerByte_not_upper (c : ascii) :
  dsess.isUpper c = false -> dsess.toLowerByte c = c.
Proof. unfold dsess.toLowerByte. intros ->. reflexivity. Qed.

Lemma toLowerByte_lower (c : ascii) :
  dsess.isUpper (dsess.toLowerByte c) = false.
Proof.
  unfold dsess.toLowerByte. destruct (dsess.isUpper c) eqn:Hc; [|exact Hc].
  unfold dsess.isUpper in *.
  apply andb_prop in Hc as [H1 H2]. apply N.leb_le in H1, H2.
  rewrite N_ascii_embedding by lia.
  apply andb_false_intro2. apply N.leb_gt. lia.
Qed.

Lemma toLowerByte_idem (c : ascii) :
  dsess.toLowerByte (dsess.toLowerByte c) = dsess.toLowerByte c.
Proof. apply toLowerByte_not_upper, toLowerByte_lower. Qed.

Lemma sameLetter_toLowerByte (c1 c2 : ascii) :
  spec.sameLetter c1 c2 = true -> dsess.toLowerByte c1 = dsess.toLowerByte c2.
Proof.
  unfold spec.sameLetter. intros H.
  apply orb_prop in H as [H|H]; [apply orb_prop in H as [H|H]|].
  - apply Ascii.eqb_eq in H. congruence.
  - apply andb_prop in H as [_ H]. apply Ascii.eqb_eq in H.
    rewrite <- H. symmetry. apply toLowerByte_idem.
  - apply andb_prop in H as [_ H]. apply Ascii.eqb_eq in H.
    rewrite <- H. apply toLowerByte_idem.
Qed.

Lemma sameLetter_byte_class (c1 c2 : ascii) :
  spec.sameLetter c1 c2 = true ->
  (N_of_ascii c1 <? 128)%N = (N_of_ascii c2 <? 128)%N
  /\ ((N_of_ascii c1 <? 128)%N = false -> c1 = c2).
Proof.
  assert (Hup : forall c, dsess.isUpper c = true ->
                 (N_of_ascii c <? 128)%N = true
                 /\ (N_of_ascii (dsess.toLowerByte c) <? 128)%N = true).
  { intros c Hc. unfold dsess.toLowerByte. rewrite Hc.
    unfold dsess.isUpper in Hc. apply andb_prop in Hc as [H1 H2].
    apply N.leb_le in H1, H2. rewrite N_ascii_embedding by lia.
    split; apply N.ltb_lt; lia. }
  unfold spec.sameLetter. intros H.
  apply orb_prop in H as [H|H]; [apply orb_prop in H as [H|H]|].
  - apply Ascii.eqb_eq in H. subst c2. split; [reflexivity | intros _; reflexivity].
  - apply andb_prop in H as [Hu H]. apply Ascii.eqb_eq in H.
    destruct (Hup c1 Hu) as [H1 H2]. rewrite H in H2. rewrite H1, H2.
    split; [reflexivity | intros E; discriminate E].
  - apply andb_prop in H as [Hu H]. apply Ascii.eqb_eq in H.
    destruct (Hup c2 Hu) as [H1 H2]. rewrite H in H2. rewrite H1, H2.
    split; [reflexivity | intros E; discriminate E].
Qed.

(** Names equal up to ASCII case have the same bytes from 128 on, in the
    same places, so they are lowered to the same string whatever the
    Unicode tables do. *)
Lemma equalFold_lowerFrom (lowerRun : string -> string) (s1 : string) :
  forall s2 run,
    spec.equalFold s1 s2 = true ->
    dsess.lowerFrom lowerRun run s1 = dsess.lowerFrom lowerRun run s2.
Proof.
  induction s1 as [|c1 r1 IH]; intros [|c2 r2] run; simpl;
    try (intros H; discriminate H).
  - reflexivity.
  - intros H. apply andb_prop in H as [Hc Hr].
    destruct (sameLetter_byte_class c1 c2 Hc) as [Hcls Heq].
    rewrite <- Hcls. destruct (N_of_ascii c1 <? 128)%N.
    + rewrite (sameLetter_toLowerByte c1 c2 Hc), (IH r2 _ Hr). reflexivity.
    + rewrite <- (Heq eq_refl). apply IH, Hr.
Qed.

Lemma equalFold_ToLower (lowerRun : string -> string) (s1 s2 : string) :
  spec.equalFold s1 s2 = true ->
  dsess.ToLower lowerRun s1 = dsess.ToLower lowerRun s2.
Proof. apply equalFold_lowerFrom. Qed.

(** On a name of bytes below 128 the Unicode tables are never consulted:
    lowering is the ASCII rule on every byte, and lowering twice is
    lowering once. *)
Lemma ToLower_ASCII (lowerRun : string -> string) (s : string) :
  spec.isASCII s = true -> dsess.ToLower lowerRun s = spec.foldASCII s.
Proof.
  unfold dsess.ToLower. induction s as [|c r IH]; simpl; [reflexivity|].
  intros H. apply andb_prop in H as [Hc Hr]. rewrite Hc, (IH Hr). reflexivity.
Qed.

Lemma foldASCII_isASCII (s : string) :
  spec.isASCII s = true -> spec.isASCII (spec.foldASCII s) = true.
Proof.
  induction s as [|c r IH]; simpl; [reflexivity|].
  intros H. apply andb_prop in H as [Hc Hr]. rewrite (IH Hr), andb_true_r.
  unfold dsess.toLowerByte. destruct (dsess.isUpper c) eqn:Hu; [|exact Hc].
  unfold dsess.isUpper in Hu. apply andb_prop in Hu as [H1 H2].
  apply N.leb_le in H1, H2. rewrite N_ascii_embedding by lia.
  apply N.ltb_lt. lia.
Qed.

Lemma foldASCII_idem (s : string) :
  spec.foldASCII (spec.foldASCII s) = spec.foldASCII s.
Proof.
  induction s as [|c r IH]; simpl; [reflexivity|].
  rewrite toLowerByte_idem, IH. reflexivity.
Qed.

Lemma ToLower_idem_ASCII (lowerRun : string -> string) (s : string) :
  spec.isASCII s = true ->
  dsess.ToLower lowerRun (dsess.ToLower lowerRun s) = dsess.ToLower lowerRun s.
Proof.
  intros H. rewrite (ToLower_ASCII lowerRun s H).
  rewrite (ToLower_ASCII lowerRun _ (foldASCII_isASCII s H)).
  apply foldASCII_idem.
Qed.

(** ** Construction *)

(** One table visited by the constructor raises the counter of its name
    to the value read, when that is larger. *)
Lemma initTable_reads
    (lowerRun : string -> string)
    (name : string) (table : dsess.Table) (sch : dsess.Schema)
    (seq : N) (seqs : gmap string N) :
  dsess.HasAutoIncrement sch = true ->
  dsess.GetAutoIncrementValue table = Ok seq ->
  exists seqs',
    dsess.initTable lowerRun name table sch seqs = (seqs', false, None)
    /\ forall k, dsess.seq_get seqs' k
                 = if String.eqb (dsess.ToLower lowerRun name) k
                   then N.max seq (dsess.seq_get seqs k)
                   else dsess.seq_get seqs k.
Proof.
  intros Hs Hv. unfold dsess.initTable. rewrite Hs, Hv. simpl.
  destruct (N.ltb_spec (dsess.seq_get seqs (dsess.ToLower lowerRun name)) seq) as [Hlt|Hge];
    eexists; (split; [reflexivity|]); intros k;
    destruct (String.eqb_spec (dsess.ToLower lowerRun name) k) as [<-|Hne].
  - rewrite seq_get_insert_eq. lia.
  - apply seq_get_insert_ne, Hne.
  - lia.
  - reflexivity.
Qed.

Lemma initTable_skips
    (lowerRun : string -> string)
    (name : string) (table : dsess.Table) (sch : dsess.Schema)
    (seqs : gmap string N) :
  dsess.HasAutoIncrement sch = false ->
  dsess.initTable lowerRun name table sch seqs = (seqs, false, None).
Proof. intros Hs. unfold dsess.initTable. rewrite Hs. reflexivity. Qed.

Lemma IterTables_initTable
    (lowerRun : string -> string)
    (entries : list (Result (string * dsess.Table * dsess.Schema))) :
  forall seqs : gmap string N,
    match spec.rootReadings lowerRun entries with
    | Err e => snd (dsess.IterTables entries (dsess.initTable lowerRun) seqs) = Some e
    | Ok l =>
        exists seqs',
          dsess.IterTables entries (dsess.initTable lowerRun) seqs = (seqs', None)
          /\ forall k, dsess.seq_get seqs' k
                       = N.max (dsess.seq_get seqs k) (spec.maxFor k l)
    end.
Proof.
  induction entries as [|[[[name table] sch]|e] rest IH]; intros seqs; simpl.
  - exists seqs. split; [reflexivity|]. intros k. lia.
  - destruct (dsess.HasAutoIncrement sch) eqn:Hs.
    + destruct (dsess.GetAutoIncrementValue table) as [seq|e] eqn:Hv.
      * destruct (initTable_reads lowerRun name table sch seq seqs Hs Hv)
          as (seqs1 & -> & H1).
        specialize (IH seqs1).
        destruct (spec.rootReadings lowerRun rest) as [l|e]; [|exact IH].
        destruct IH as (seqs' & -> & H2). exists seqs'.
        split; [reflexivity|]. intros k. rewrite H2, H1. simpl.
        destruct (String.eqb (dsess.ToLower lowerRun name) k); lia.
      * unfold dsess.initTable. rewrite Hs, Hv. reflexivity.
    + rewrite (initTable_skips lowerRun name table sch seqs Hs). apply IH.
  - reflexivity.
Qed.

Lemma maxFor_app (k : string) (l l' : list (string * N)) :
  spec.maxFor k (l ++ l') = N.max (spec.maxFor k l) (spec.maxFor k l').
Proof.
  induction l as [|[k0 v] l IH]; simpl.
  - lia.
  - rewrite IH. destruct (String.eqb k0 k); lia.
Qed.

Lemma initRoots_readings (lowerRun : string -> string) (roots : list dsess.Rootish) :
  forall seqs : gmap string N,
    match spec.readings lowerRun roots with
    | Err e => dsess.initRoots lowerRun roots seqs = Err e
    | Ok l =>
        exists seqs',
          dsess.initRoots lowerRun roots seqs = Ok seqs'
          /\ forall k, dsess.seq_get seqs' k
                       = N.max (dsess.seq_get seqs k) (spec.maxFor k l)
    end.
Proof.
  induction roots as [|r rest IH]; intros seqs; simpl.
  - exists seqs. split; [reflexivity|]. intros k. lia.
  - destruct (dsess.ResolveRootValue r) as [root|e]; [|reflexivity].
    pose proof (IterTables_initTable lowerRun (dsess.tables root) seqs) as Hroot.
    destruct (spec.rootReadings lowerRun (dsess.tables root)) as [l|e].
    + destruct Hroot as (seqs1 & -> & H1). specialize (IH seqs1).
      destruct (spec.readings lowerRun rest) as [l'|e]; [|exact IH].
      destruct IH as (seqs' & -> & H2). exists seqs'.
      split; [reflexivity|]. intros k. rewrite H2, H1, maxFor_app. lia.
    + destruct (dsess.IterTables (dsess.tables root) (dsess.initTable lowerRun) seqs)
        as [s1 o]. simpl in Hroot. subst o. reflexivity.
Qed.

(** C7: the constructor either meets a failing read, and returns its
    error, or returns a tracker in which the counter of every name is the
    maximum of the persisted values read, over all the roots, from the
    tables of that name (lowercased) whose schema has an AUTO_INCREMENT
    column.  So two roots that expose a table with the persisted values 5
    and 9, under two names that [strings.ToLower] sends to the same
    string, build a tracker whose counter for that table is 9. *)
Theorem NewAutoIncrementTracker_max
    (lowerRun : string -> string) (db : string) (roots : list dsess.Rootish) :
  match spec.readings lowerRun roots with
  | Err e => dsess.NewAutoIncrementTracker lowerRun db roots = Err e
  | Ok l =>
      exists a,
        dsess.NewAutoIncrementTracker lowerRun db roots = Ok a
        /\ forall t, dsess.Current lowerRun a t
                     = spec.maxFor (dsess.ToLower lowerRun t) l
  end
  /\ (forall (n1 n2 : string) (tb1 tb2 : dsess.Table) (sch1 sch2 : dsess.Schema)
             (look1 look2 : string -> Result (option dsess.Table)),
        dsess.HasAutoIncrement sch1 = true ->
        dsess.HasAutoIncrement sch2 = true ->
        dsess.GetAutoIncrementValue tb1 = Ok 5%N ->
        dsess.GetAutoIncrementValue tb2 = Ok 9%N ->
        dsess.ToLower lowerRun n1 = dsess.ToLower lowerRun n2 ->
        exists a,
          dsess.NewAutoIncrementTracker lowerRun db
            [dsess.mkRootish (Ok (dsess.mkRootValue [Ok (n1, tb1, sch1)] look1));
             dsess.mkRootish (Ok (dsess.mkRootValue [Ok (n2, tb2, sch2)] look2))]
          = Ok a
          /\ dsess.Current lowerRun a n1 = 9%N
          /\ dsess.Current lowerRun a n2 = 9%N).
Proof.
  assert (Hmax : forall roots : list dsess.Rootish,
             match spec.readings lowerRun roots with
             | Err e => dsess.NewAutoIncrementTracker lowerRun db roots = Err e
             | Ok l =>
                 exists a,
                   dsess.NewAutoIncrementTracker lowerRun db roots = Ok a
                   /\ forall t, dsess.Current lowerRun a t
                                = spec.maxFor (dsess.ToLower lowerRun t) l
             end).
  { clear roots. intros roots. unfold dsess.NewAutoIncrementTracker.
    pose proof (initRoots_readings lowerRun roots ∅) as H.
    destruct (spec.readings lowerRun roots) as [l|e].
    - destruct H as (seqs & -> & Hs). eexists. split; [reflexivity|].
      intros t. unfold dsess.Current. simpl. rewrite Hs, seq_get_empty. lia.
    - rewrite H. reflexivity. }
  split; [apply Hmax|].
  intros n1 n2 tb1 tb2 sch1 sch2 look1 look2 Hs1 Hs2 Hv1 Hv2 Hn.
  pose proof (Hmax
    [dsess.mkRootish (Ok (dsess.mkRootValue [Ok (n1, tb1, sch1)] look1));
     dsess.mkRootish (Ok (dsess.mkRootValue [Ok (n2, tb2, sch2)] look2))]) as H.
  cbn [spec.readings spec.rootReadings dsess.ResolveRootValue dsess.tables] in H.
  rewrite Hs1, Hs2, Hv1, Hv2 in H. cbn [app] in H.
  destruct H as (a & Ha & Hc). exists a. split; [exact Ha|].
  rewrite !Hc. cbn [spec.maxFor]. rewrite <- Hn, String.eqb_refl.
  split; reflexivity.
Qed.

(** Scenario S4: two roots expose table [t], one as [T] with the
    persisted value 5 and one as [t] with 9; the tracker built from them
    has [Current "t" = 9], and so has [Current "T"]. *)
Example NewAutoIncrementTracker_two_roots :
  exists a,
    dsess.NewAutoIncrementTracker sample.lowerRun "db"
      [dsess.mkRootish (Ok (sample.rootWith "T" 5));
       dsess.mkRootish (Ok (sample.rootWith "t" 9))] = Ok a
    /\ dsess.Current sample.lowerRun a "t" = 9%N
    /\ dsess.Current sample.lowerRun a "T" = 9%N.
Proof. eexists. split; [reflexivity|]. vm_compute. split; reflexivity. Qed.

(** The same with a name outside ASCII: with a lowering that sends the
    upper-case E with an acute accent to the lower-case one, the roots
    that hold the table under the one name at 5 and under the other at 9
    build one counter, at 9. *)
Example NewAutoIncrementTracker_two_roots_accent :
  exists a,
    dsess.NewAutoIncrementTracker sample.lowerRun "db"
      [dsess.mkRootish (Ok (sample.rootWith sample.upperE 5));
       dsess.mkRootish (Ok (sample.rootWith sample.lowerE 9))] = Ok a
    /\ dsess.Current sample.lowerRun a sample.upperE = 9%N
    /\ dsess.Current sample.lowerRun a sample.lowerE = 9%N.
Proof. eexists. split; [reflexivity|]. vm_compute. split; reflexivity. Qed.

(** A root that fails to resolve aborts the construction with its error. *)
Example NewAutoIncrementTracker_failing_root :
  dsess.NewAutoIncrementTracker sample.lowerRun "db"
    [dsess.mkRootish (Ok (sample.rootWith "t" 5));
     dsess.mkRootish (Err sample.cancelled)] = Err sample.cancelled.
Proof. reflexivity. Qed.

(** Every counter of a constructed tracker is at least 1: a value read
    enters the map only when it is above what the map answers. *)
Lemma initTable_positive
    (lowerRun : string -> string)
    (name : string) (table : dsess.Table) (sch : dsess.Schema)
    (seqs : gmap string N) :
  (forall k n, seqs !! k = Some n -> (1 <= n)%N) ->
  forall k n,
    (dsess.initTable lowerRun name table sch seqs).1.1 !! k = Some n -> (1 <= n)%N.
Proof.
  intros Hinv k n. unfold dsess.initTable.
  destruct (dsess.HasAutoIncrement sch); simpl; [|apply Hinv].
  destruct (dsess.GetAutoIncrementValue table) as [seq|e]; simpl; [|apply Hinv].
  destruct (N.ltb_spec (dsess.seq_get seqs (dsess.ToLower lowerRun name)) seq) as [Hlt|Hge];
    simpl; [|apply Hinv].
  destruct (decide (dsess.ToLower lowerRun name = k)) as [<-|Hne].
  - rewrite lookup_insert_eq. intros [= <-]. lia.
  - rewrite lookup_insert_ne by exact Hne. apply Hinv.
Qed.

Lemma IterTables_positive
    (lowerRun : string -> string)
    (entries : list (Result (string * dsess.Table * dsess.Schema))) :
  forall seqs : gmap string N,
    (forall k n, seqs !! k = Some n -> (1 <= n)%N) ->
    forall k n,
      (dsess.IterTables entries (dsess.initTable lowerRun) seqs).1 !! k = Some n ->
      (1 <= n)%N.
Proof.
  induction entries as [|[[[name table] sch]|e] rest IH]; intros seqs Hinv;
    simpl; [exact Hinv| |exact Hinv].
  pose proof (initTable_positive lowerRun name table sch seqs Hinv) as H1.
  destruct (dsess.initTable lowerRun name table sch seqs) as [[seqs1 stop] [e|]];
    simpl in H1; destruct stop; try exact H1.
  apply IH, H1.
Qed.

Lemma initRoots_positive (lowerRun : string -> string) (roots : list dsess.Rootish) :
  forall seqs seqs' : gmap string N,
    (forall k n, seqs !! k = Some n -> (1 <= n)%N) ->
    dsess.initRoots lowerRun roots seqs = Ok seqs' ->
    forall k n, seqs' !! k = Some n -> (1 <= n)%N.
Proof.
  induction roots as [|r rest IH]; intros seqs seqs' Hinv; simpl.
  - intros [= <-]. exact Hinv.
  - destruct (dsess.ResolveRootValue r) as [root|e]; [|discriminate].
    pose proof (IterTables_positive lowerRun (dsess.tables root) seqs Hinv) as H1.
    destruct (dsess.IterTables (dsess.tables root) (dsess.initTable lowerRun) seqs)
      as [seqs1 [e|]]; [discriminate|].
    apply (IH seqs1 seqs' H1).
Qed.

Lemma NewAutoIncrementTracker_positive
    (lowerRun : string -> string)
    (db : string) (roots : list dsess.Rootish)
    (a : dsess.AutoIncrementTracker) :
  dsess.NewAutoIncrementTracker lowerRun db roots = Ok a ->
  forall k n, dsess.sequences a !! k = Some n -> (1 <= n)%N.
Proof.
  unfold dsess.NewAutoIncrementTracker.
  destruct (dsess.initRoots lowerRun roots ∅) as [seqs|e] eqn:H; intros [= <-]. simpl.
  apply (initRoots_positive lowerRun roots ∅ seqs); [|exact H].
  intros k n. rewrite lookup_empty. discriminate.
Qed.

(** ** Next, AddNewTable and the lowercased names *)

Section NextFacts.

Variable lowerRun : string -> string.

Variable math_Round : spec_float -> spec_float.
Variable Uint64_Convert : dsess.GoValue -> Result (option N).

Local Abbreviation Coerce := (dsess.CoerceAutoIncrementValue math_Round Uint64_Convert).
Local Abbreviation Next := (dsess.Next lowerRun math_Round Uint64_Convert).

Lemma Next_zero (a : dsess.AutoIncrementTracker) (t : string) (v : dsess.GoValue) :
  Coerce v = Ok 0%N ->
  Next a t v
  = (Ok (dsess.Current lowerRun a t),
     dsess.set_seq a (dsess.ToLower lowerRun t) (dsess.incr (dsess.Current lowerRun a t))).
Proof. intros H. unfold dsess.Next. rewrite H. reflexivity. Qed.

Lemma Next_catch_up (a : dsess.AutoIncrementTracker) (t : string)
    (v : dsess.GoValue) (given : N) :
  Coerce v = Ok given -> given <> 0%N -> (dsess.Current lowerRun a t <= given)%N ->
  Next a t v = (Ok given, dsess.set_seq a (dsess.ToLower lowerRun t) (dsess.incr given)).
Proof.
  intros H H0 Hle. unfold dsess.Next. rewrite H.
  destruct (N.eqb_spec given 0) as [|_]; [contradiction|].
  fold (dsess.Current lowerRun a t).
  destruct (N.leb_spec (dsess.Current lowerRun a t) given); [reflexivity | lia].
Qed.

Lemma Next_below (a : dsess.AutoIncrementTracker) (t : string)
    (v : dsess.GoValue) (given : N) :
  Coerce v = Ok given -> given <> 0%N -> (given < dsess.Current lowerRun a t)%N ->
  Next a t v = (Ok given, a).
Proof.
  intros H H0 Hlt. unfold dsess.Next. rewrite H.
  destruct (N.eqb_spec given 0) as [|_]; [contradiction|].
  fold (dsess.Current lowerRun a t).
  destruct (N.leb_spec (dsess.Current lowerRun a t) given); [lia | reflexivity].
Qed.

(** A failed coercion is returned and the tracker is left as it was. *)
Lemma Next_coercion_error (a : dsess.AutoIncrementTracker) (t : string)
    (v : dsess.GoValue) (e : error) :
  Coerce v = Err e -> Next a t v = (Err e, a).
Proof. intros H. unfold dsess.Next. rewrite H. reflexivity. Qed.

Lemma Current_set_seq (a : dsess.AutoIncrementTracker) (t : string) (n : N) :
  dsess.Current lowerRun (dsess.set_seq a (dsess.ToLower lowerRun t) n) t = n.
Proof. unfold dsess.Current. simpl. apply seq_get_insert_eq. Qed.

Lemma Current_set_seq_key (a : dsess.AutoIncrementTracker) (k t : string) (n : N) :
  dsess.ToLower lowerRun t = k -> dsess.Current lowerRun (dsess.set_seq a k n) t = n.
Proof. intros <-. apply Current_set_seq. Qed.

End NextFacts.

(** C4: with [given] the coerced insert value and [curr] the counter of
    [t]: a [given] of 0 returns [curr] and leaves the counter at [curr+1];
    a [given >= curr] returns [given] and leaves the counter at [given+1];
    any other [given] (not 0, below [curr]) returns [given] and leaves the
    tracker as it was.  [+1] is the [++] of a uint64: it wraps at 2^64. *)
Theorem Next_three_branches
    (lowerRun : string -> string)
    (math_Round : spec_float -> spec_float)
    (Uint64_Convert : dsess.GoValue -> Result (option N))
    (a : dsess.AutoIncrementTracker) (t : string) (v : dsess.GoValue) (given : N)
    (Hv : dsess.CoerceAutoIncrementValue math_Round Uint64_Convert v = Ok given) :
  let curr := dsess.Current lowerRun a t in
  let r := dsess.Next lowerRun math_Round Uint64_Convert a t v in
  (given = 0%N ->
   r.1 = Ok curr /\ dsess.Current lowerRun r.2 t = ((curr + 1) mod 2 ^ 64)%N)
  /\ ((curr <= given)%N ->
      r.1 = Ok given /\ dsess.Current lowerRun r.2 t = ((given + 1) mod 2 ^ 64)%N)
  /\ (given <> 0%N -> (given < curr)%N -> r.1 = Ok given /\ r.2 = a).
Proof.
  intros curr r. subst curr r. repeat split.
  - subst given. rewrite (Next_zero _ _ _ a t v Hv). reflexivity.
  - subst given. rewrite (Next_zero _ _ _ a t v Hv). simpl. apply Current_set_seq.
  - destruct (N.eq_dec given 0%N) as [->|H0].
    + assert (Hc : dsess.Current lowerRun a t = 0%N) by lia.
      rewrite (Next_zero _ _ _ a t v Hv). simpl. rewrite Hc. reflexivity.
    + rewrite (Next_catch_up _ _ _ a t v given Hv H0 H). reflexivity.
  - destruct (N.eq_dec given 0%N) as [->|H0].
    + assert (Hc : dsess.Current lowerRun a t = 0%N) by lia.
      rewrite (Next_zero _ _ _ a t v Hv). simpl. rewrite Current_set_seq, Hc.
      reflexivity.
    + rewrite (Next_catch_up _ _ _ a t v given Hv H0 H). simpl.
      apply Current_set_seq.
  - rewrite (Next_below _ _ _ a t v given Hv H H0). reflexivity.
  - rewrite (Next_below _ _ _ a t v given Hv H H0). reflexivity.
Qed.

Lemma Next_three_branches_witness :
  ((sample.next (sample.trackerWith "t" 10) "t" dsess.go_nil).1 = Ok 10%N
   /\ dsess.Current sample.lowerRun
        (sample.next (sample.trackerWith "t" 10) "t" dsess.go_nil).2 "t" = 11%N)
  /\ ((sample.next (sample.trackerWith "t" 10) "t" (dsess.go_uint64 12)).1 = Ok 12%N
      /\ dsess.Current sample.lowerRun
           (sample.next (sample.trackerWith "t" 10) "t" (dsess.go_uint64 12)).2 "t"
         = 13%N)
  /\ ((sample.next (sample.trackerWith "t" 10) "t" (dsess.go_uint64 3)).1 = Ok 3%N
      /\ (sample.next (sample.trackerWith "t" 10) "t" (dsess.go_uint64 3)).2
         = sample.trackerWith "t" 10).
Proof.
  split; [|split].
  - apply (Next_three_branches sample.lowerRun sample.round sample.convert
             (sample.trackerWith "t" 10) "t" dsess.go_nil 0 eq_refl).
    reflexivity.
  - apply (Next_three_branches sample.lowerRun sample.round sample.convert
             (sample.trackerWith "t" 10) "t" (dsess.go_uint64 12) 12 eq_refl).
    vm_compute. discriminate.
  - apply (Next_three_branches sample.lowerRun sample.round sample.convert
             (sample.trackerWith "t" 10) "t" (dsess.go_uint64 3) 3 eq_refl).
    + discriminate.
    + vm_compute. reflexivity.
Defined.

(** C10: when the coerced insert value is 0 and the map has no entry
    under the lowercased name of [t], [Next] returns 0 and leaves
    [Current t = 1]; had [AddNewTable t] been called first, [Next] returns
    1; and in a tracker that comes from the constructor, a table with an
    entry gets a value of at least 1. *)
Theorem Next_unregistered_table
    (lowerRun : string -> string)
    (math_Round : spec_float -> spec_float)
    (Uint64_Convert : dsess.GoValue -> Result (option N))
    (a : dsess.AutoIncrementTracker) (t : string) (v : dsess.GoValue)
    (Hv : dsess.CoerceAutoIncrementValue math_Round Uint64_Convert v = Ok 0%N) :
  (dsess.sequences a !! dsess.ToLower lowerRun t = None ->
   (dsess.Next lowerRun math_Round Uint64_Convert a t v).1 = Ok 0%N
   /\ dsess.Current lowerRun
        (dsess.Next lowerRun math_Round Uint64_Convert a t v).2 t = 1%N)
  /\ (dsess.sequences a !! dsess.ToLower lowerRun t = None ->
      (dsess.Next lowerRun math_Round Uint64_Convert
         (dsess.AddNewTable lowerRun a t) t v).1 = Ok 1%N)
  /\ (forall db roots,
        dsess.NewAutoIncrementTracker lowerRun db roots = Ok a ->
        is_Some (dsess.sequences a !! dsess.ToLower lowerRun t) ->
        exists n, (dsess.Next lowerRun math_Round Uint64_Convert a t v).1 = Ok n
                  /\ (1 <= n)%N).
Proof.
  split; [|split].
  - intros Hnone. rewrite (Next_zero _ _ _ a t v Hv). simpl.
    rewrite Current_set_seq. unfold dsess.Current.
    rewrite (seq_get_None _ _ Hnone). split; reflexivity.
  - intros Hnone. rewrite (Next_zero _ _ _ _ t v Hv). simpl.
    unfold dsess.AddNewTable. rewrite Hnone. rewrite Current_set_seq.
    reflexivity.
  - intros db roots Hnew [n Hn]. exists n.
    rewrite (Next_zero _ _ _ a t v Hv). simpl. unfold dsess.Current, dsess.seq_get.
    rewrite Hn. split; [reflexivity|].
    apply (NewAutoIncrementTracker_positive lowerRun db roots a Hnew _ n Hn).
Qed.

Lemma Next_unregistered_table_witness :
  ((sample.next sample.emptyTracker "t" dsess.go_nil).1 = Ok 0%N
   /\ dsess.Current sample.lowerRun
        (sample.next sample.emptyTracker "t" dsess.go_nil).2 "t" = 1%N)
  /\ (sample.next (dsess.AddNewTable sample.lowerRun sample.emptyTracker "t")
        "t" dsess.go_nil).1 = Ok 1%N
  /\ exists n, (sample.next (sample.trackerWith "t" 9) "T" (dsess.go_uint64 0)).1 = Ok n
               /\ (1 <= n)%N.
Proof.
  split; [|split].
  - apply (Next_unregistered_table sample.lowerRun sample.round sample.convert
             sample.emptyTracker "t" dsess.go_nil eq_refl).
    reflexivity.
  - apply (Next_unregistered_table sample.lowerRun sample.round sample.convert
             sample.emptyTracker "t" dsess.go_nil eq_refl).
    reflexivity.
  - apply (Next_unregistered_table sample.lowerRun sample.round sample.convert
             (sample.trackerWith "t" 9) "T" (dsess.go_uint64 0) eq_refl)
      with (db := "db"%string)
           (roots := [dsess.mkRootish (Ok (sample.rootWith "t" 5));
                      dsess.mkRootish (Ok (sample.rootWith "T" 9))]).
    + vm_compute. reflexivity.
    + exists 9%N. vm_compute. reflexivity.
Defined.

(** C8: every operation reads its table name through [ToLower], so on two
    names equal up to ASCII case [Current], [Next], [AddNewTable], [Set]
    and [DropTable] give the same answer and the same tracker; and from a
    tracker without an entry for [foo], after [AddNewTable "Foo"],
    [Next "foo" 0] returns 1 and [Current "FOO"] is 2. *)
Theorem table_names_fold_case
    (lowerRun : string -> string)
    (math_Round : spec_float -> spec_float)
    (Uint64_Convert : dsess.GoValue -> Result (option N))
    (WorkingSetRefForHead : dsess.DoltRef -> Result dsess.WorkingSetRef)
    (n1 n2 : string) (Hfold : spec.equalFold n1 n2 = true) :
  (forall a, dsess.Current lowerRun a n1 = dsess.Current lowerRun a n2)
  /\ (forall a v, dsess.Next lowerRun math_Round Uint64_Convert a n1 v
                  = dsess.Next lowerRun math_Round Uint64_Convert a n2 v)
  /\ (forall a, dsess.AddNewTable lowerRun a n1 = dsess.AddNewTable lowerRun a n2)
  /\ (forall ctx a ws val,
        dsess.Set_ lowerRun WorkingSetRefForHead ctx a ws n1 val
        = dsess.Set_ lowerRun WorkingSetRefForHead ctx a ws n2 val)
  /\ (forall a wses,
        dsess.DropTable lowerRun a n1 wses = dsess.DropTable lowerRun a n2 wses)
  /\ (forall a v,
        dsess.sequences a !! "foo"%string = None ->
        dsess.CoerceAutoIncrementValue math_Round Uint64_Convert v = Ok 0%N ->
        let r := dsess.Next lowerRun math_Round Uint64_Convert
                   (dsess.AddNewTable lowerRun a "Foo") "foo" v in
        r.1 = Ok 1%N /\ dsess.Current lowerRun r.2 "FOO" = 2%N).
Proof.
  pose proof (equalFold_ToLower lowerRun n1 n2 Hfold) as E.
  repeat split.
  - intros a. unfold dsess.Current. rewrite E. reflexivity.
  - intros a v. unfold dsess.Next. rewrite E. reflexivity.
  - intros a. unfold dsess.AddNewTable. rewrite E. reflexivity.
  - intros ctx a ws val. unfold dsess.Set_. rewrite E. reflexivity.
  - intros a wses. unfold dsess.DropTable. rewrite E. reflexivity.
  - rewrite (Next_zero _ _ _ _ "foo" v H0). simpl.
    unfold dsess.AddNewTable.
    change (dsess.ToLower lowerRun "Foo") with "foo"%string. rewrite H.
    f_equal. apply Current_set_seq_key. reflexivity.
  - rewrite (Next_zero _ _ _ _ "foo" v H0). simpl.
    unfold dsess.AddNewTable.
    change (dsess.ToLower lowerRun "Foo") with "foo"%string. rewrite H.
    rewrite (Current_set_seq_key lowerRun a "foo" "foo" 1 eq_refl).
    apply Current_set_seq_key. reflexivity.
Qed.

Lemma table_names_fold_case_witness :
  sample.next (sample.trackerWith "t" 10) "T" dsess.go_nil
  = sample.next (sample.trackerWith "t" 10) "t" dsess.go_nil
  /\ (sample.next (dsess.AddNewTable sample.lowerRun sample.emptyTracker "Foo") "foo"
        (dsess.go_uint64 0)).1 = Ok 1%N
  /\ dsess.Current sample.lowerRun
       (sample.next (dsess.AddNewTable sample.lowerRun sample.emptyTracker "Foo") "foo"
          (dsess.go_uint64 0)).2 "FOO" = 2%N.
Proof.
  pose proof (table_names_fold_case sample.lowerRun sample.round sample.convert
                sample.wsRefForHead "T" "t" eq_refl)
    as (_ & HNext & _ & _ & _ & HS7).
  split; [apply HNext|].
  apply (HS7 sample.emptyTracker (dsess.go_uint64 0)); reflexivity.
Defined.

(** A name outside ASCII: with a lowering that sends the upper-case E
    with an acute accent to the lower-case one, the two names share one
    counter.  From a map that holds the lower-case name at 5, [Next] on
    the upper-case name returns 5, not 0, and [Current] of the lower-case
    name is then 6. *)
Example accented_names_share_a_counter :
  dsess.sequences (sample.trackerWith sample.lowerE 5) !! sample.upperE = None
  /\ (sample.next (sample.trackerWith sample.lowerE 5) sample.upperE dsess.go_nil).1
     = Ok 5%N
  /\ dsess.Current sample.lowerRun
       (sample.next (sample.trackerWith sample.lowerE 5) sample.upperE dsess.go_nil).2
       sample.lowerE = 6%N
  /\ dsess.AddNewTable sample.lowerRun (sample.trackerWith sample.lowerE 5)
       sample.upperE = sample.trackerWith sample.lowerE 5
  /\ dsess.Current sample.lowerRun
       (dsess.DropTable sample.lowerRun (sample.trackerWith sample.lowerE 5)
          sample.upperE []).2 sample.lowerE = 1%N.
Proof. repeat split; vm_compute; reflexivity. Qed.

(** ** Set and DropTable when a read fails *)

(** [Set] assigns after its scan: an error leaves the tracker as it was. *)
Lemma Set_error_unchanged
    (lowerRun : string -> string)
    (WorkingSetRefForHead : dsess.DoltRef -> Result dsess.WorkingSetRef)
    (ctx : dsess.Context) (a : dsess.AutoIncrementTracker)
    (ws : dsess.WorkingSetRef) (t : string) (val : N) (e : error) :
  (dsess.Set_ lowerRun WorkingSetRefForHead ctx a ws t val).1 = Some e ->
  (dsess.Set_ lowerRun WorkingSetRefForHead ctx a ws t val).2 = a.
Proof.
  unfold dsess.Set_, dsess.deepSet.
  destruct (_ <? val)%N; [discriminate|].
  destruct (dsess.BaseDatabase ctx (dsess.dbName a)) as [db|]; [|discriminate].
  destruct (negb (dsess.Versioned db)); [discriminate|].
  destruct (dsess.deepSetDbs lowerRun _ _ _ _) as [[t' m]|e']; [discriminate|].
  reflexivity.
Qed.

(** [DropTable] assigns before its scan: when the first read fails, the
    error comes back with the counter already reset to 1. *)
Lemma DropTable_first_read_fails
    (lowerRun : string -> string)
    (a : dsess.AutoIncrementTracker) (t : string)
    (ws : dsess.WorkingSet) (rest : list dsess.WorkingSet) (e : error) :
  dsess.GetTableInsensitive (dsess.WorkingRoot ws) (dsess.ToLower lowerRun t) = Err e ->
  dsess.DropTable lowerRun a t (ws :: rest)
  = (Some e, dsess.set_seq a (dsess.ToLower lowerRun t) 1).
Proof. intros H. unfold dsess.DropTable. simpl. rewrite H. reflexivity. Qed.

(** C3 (what the code does): with the counter of [t] at 10 and a working
    set whose lookup fails, [DropTable] returns the error and leaves the
    counter at 1, not at 10; a second working set read before the failure,
    with [t] at 42, leaves it at 42. *)
Theorem DropTable_error_changes_counter :
  dsess.Current sample.lowerRun (sample.trackerWith "t" 10) "t" = 10%N
  /\ (dsess.DropTable sample.lowerRun (sample.trackerWith "t" 10) "t"
        [sample.workingSet sample.failingRoot]).1 = Some sample.cancelled
  /\ dsess.Current sample.lowerRun
       (dsess.DropTable sample.lowerRun (sample.trackerWith "t" 10) "t"
          [sample.workingSet sample.failingRoot]).2 "t" = 1%N
  /\ (dsess.DropTable sample.lowerRun (sample.trackerWith "t" 10) "t"
        [sample.workingSet (sample.rootWith "t" 42);
         sample.workingSet sample.failingRoot]).1 = Some sample.cancelled
  /\ dsess.Current sample.lowerRun
       (dsess.DropTable sample.lowerRun (sample.trackerWith "t" 10) "t"
          [sample.workingSet (sample.rootWith "t" 42);
           sample.workingSet sample.failingRoot]).2 "t" = 42%N.
Proof. repeat split; vm_compute; reflexivity. Qed.

(** [Set] on the same tracker: the scan skips the owning working set of
    [main], reads the head of [feature] and assigns the maximum; when that
    head fails to resolve, the error comes back and nothing is assigned. *)
Example Set_scans_other_branches :
  dsess.Set_ sample.lowerRun sample.wsRefForHead
    (sample.registry (sample.rootWith "t" 20) (Ok (sample.rootWith "t" 7)))
    (sample.trackerWith "t" 10) "workingSets/heads/main" "T" 3
  = (None, sample.trackerWith "t" 7).
Proof. vm_compute. reflexivity. Qed.

Example Set_failing_scan :
  dsess.Set_ sample.lowerRun sample.wsRefForHead
    (sample.registry (sample.rootWith "t" 20) (Err sample.cancelled))
    (sample.trackerWith "t" 10) "workingSets/heads/main" "T" 3
  = (Some sample.cancelled, sample.trackerWith "t" 10).
Proof. vm_compute. reflexivity. Qed.

(** Scenario S6: [DropTable] with a working set holding [t] at 42 and one
    without [t] leaves the counter at 42, and [AddNewTable] keeps it. *)
Example DropTable_then_AddNewTable :
  let r := dsess.DropTable sample.lowerRun (sample.trackerWith "t" 10) "t"
             [sample.workingSet (sample.rootWith "t" 42);
              sample.workingSet sample.emptyRoot] in
  r.1 = None /\ dsess.Current sample.lowerRun r.2 "t" = 42%N
  /\ dsess.Current sample.lowerRun (dsess.AddNewTable sample.lowerRun r.2 "t") "t" = 42%N.
Proof. repeat split; vm_compute; reflexivity. Qed.

(** * Further properties of the tracker *)

Lemma Current_set_seq_other
    (lowerRun : string -> string)
    (a : dsess.AutoIncrementTracker) (k t' : string) (n : N) :
  dsess.ToLower lowerRun t' <> k ->
  dsess.Current lowerRun (dsess.set_seq a k n) t' = dsess.Current lowerRun a t'.
Proof.
  intros H. unfold dsess.Current. simpl. apply seq_get_insert_ne. congruence.
Qed.

(** ** AddNewTable *)

(** X1: [AddNewTable] gives the counter 1 to a table that has no entry
    and leaves a tracker that has an entry for the table exactly as it
    was; so it is idempotent, never lowers the counter of any table, and
    leaves as it was every table whose name [strings.ToLower] sends to
    another string. *)
Theorem AddNewTable_idempotent_monotone
    (lowerRun : string -> string)
    (a : dsess.AutoIncrementTracker) (t : string) :
  (dsess.sequences a !! dsess.ToLower lowerRun t = None ->
   dsess.Current lowerRun (dsess.AddNewTable lowerRun a t) t = 1%N)
  /\ (is_Some (dsess.sequences a !! dsess.ToLower lowerRun t) ->
      dsess.AddNewTable lowerRun a t = a)
  /\ dsess.AddNewTable lowerRun (dsess.AddNewTable lowerRun a t) t
     = dsess.AddNewTable lowerRun a t
  /\ (forall t', (dsess.Current lowerRun a t'
                  <= dsess.Current lowerRun (dsess.AddNewTable lowerRun a t) t')%N)
  /\ (forall t', dsess.ToLower lowerRun t' <> dsess.ToLower lowerRun t ->
                 dsess.Current lowerRun (dsess.AddNewTable lowerRun a t) t'
                 = dsess.Current lowerRun a t').
Proof.
  unfold dsess.AddNewTable.
  destruct (dsess.sequences a !! dsess.ToLower lowerRun t) as [n|] eqn:Hk.
  - rewrite Hk. repeat split; intros; try reflexivity; try lia.
    discriminate.
  - split; [|split; [|split; [|split]]].
    + intros _. apply Current_set_seq.
    + intros [n Hn]. discriminate Hn.
    + simpl. rewrite lookup_insert_eq. reflexivity.
    + intros t'.
      destruct (decide (dsess.ToLower lowerRun t' = dsess.ToLower lowerRun t))
        as [E|E].
      * rewrite (Current_set_seq_key lowerRun a _ t' 1 E). unfold dsess.Current.
        rewrite E, (seq_get_None _ _ Hk). lia.
      * rewrite (Current_set_seq_other lowerRun a _ t' 1 E). lia.
    + intros t' E. apply Current_set_seq_other, E.
Qed.

(** ** Next *)

(** X2: [Next] on one table never touches the counter of a table whose
    name [strings.ToLower] sends to another string, whatever the insert
    value, a value that fails to coerce included. *)
Theorem Next_other_tables_unchanged
    (lowerRun : string -> string)
    (math_Round : spec_float -> spec_float)
    (Uint64_Convert : dsess.GoValue -> Result (option N))
    (a : dsess.AutoIncrementTracker) (t t' : string) (v : dsess.GoValue)
    (Hne : dsess.ToLower lowerRun t' <> dsess.ToLower lowerRun t) :
  dsess.Current lowerRun (dsess.Next lowerRun math_Round Uint64_Convert a t v).2 t'
  = dsess.Current lowerRun a t'.
Proof.
  unfold dsess.Next.
  destruct (dsess.CoerceAutoIncrementValue _ _ v) as [given|e]; [|reflexivity].
  destruct (given =? 0)%N; simpl; [apply Current_set_seq_other, Hne|].
  destruct (_ <=? given)%N; simpl; [apply Current_set_seq_other, Hne|reflexivity].
Qed.

Lemma Next_other_tables_unchanged_witness :
  dsess.Current sample.lowerRun
    (sample.next (sample.trackerTwo 10 4) "T" (dsess.go_uint64 50)).2 "u"
  = dsess.Current sample.lowerRun (sample.trackerTwo 10 4) "u".
Proof.
  apply (Next_other_tables_unchanged sample.lowerRun sample.round sample.convert
           (sample.trackerTwo 10 4) "T" "u" (dsess.go_uint64 50)).
  discriminate.
Defined.

(** X3: as long as the counter stays below 2^64, [n] calls of [Next] in a
    row with a null or zero insert value hand out [curr], [curr+1], ...,
    [curr+n-1] and leave the counter at [curr+n]. *)
Theorem Next_generates_consecutive
    (lowerRun : string -> string)
    (math_Round : spec_float -> spec_float)
    (Uint64_Convert : dsess.GoValue -> Result (option N))
    (t : string) (v : dsess.GoValue)
    (Hv : dsess.CoerceAutoIncrementValue math_Round Uint64_Convert v = Ok 0%N)
    (n : nat) (a : dsess.AutoIncrementTracker)
    (Hfit : (dsess.Current lowerRun a t + N.of_nat n < 2 ^ 64)%N) :
  (spec.repeatNext lowerRun math_Round Uint64_Convert n a t v).1
  = map (fun i => Ok (dsess.Current lowerRun a t + N.of_nat i)%N) (seq 0 n)
  /\ dsess.Current lowerRun (spec.repeatNext lowerRun math_Round Uint64_Convert n a t v).2 t
     = (dsess.Current lowerRun a t + N.of_nat n)%N.
Proof.
  revert a Hfit. induction n as [|n IH]; intros a Hfit.
  - simpl. split; [reflexivity | lia].
  - cbn [spec.repeatNext]. rewrite (Next_zero _ _ _ a t v Hv). cbn [fst snd].
    set (a1 := dsess.set_seq a (dsess.ToLower lowerRun t)
                 (dsess.incr (dsess.Current lowerRun a t))).
    assert (H1 : dsess.Current lowerRun a1 t = (dsess.Current lowerRun a t + 1)%N).
    { unfold a1. rewrite Current_set_seq. apply incr_small.
      unfold dsess.uint64_modulus. lia. }
    destruct (IH a1) as [Hl Hc]; [rewrite H1; lia|].
    split.
    + rewrite Hl. cbn [seq map]. f_equal; [f_equal; lia|].
      rewrite <- seq_shift, map_map. apply map_ext. intros i.
      rewrite H1. f_equal. lia.
    + rewrite Hc, H1. lia.
Qed.

Lemma Next_generates_consecutive_witness :
  (spec.repeatNext sample.lowerRun sample.round sample.convert 3 (sample.trackerWith "t" 10)
     "T" dsess.go_nil).1 = [Ok 10%N; Ok 11%N; Ok 12%N]
  /\ dsess.Current sample.lowerRun
       (spec.repeatNext sample.lowerRun sample.round sample.convert 3
          (sample.trackerWith "t" 10) "T" dsess.go_nil).2 "T" = 13%N.
Proof.
  apply (Next_generates_consecutive sample.lowerRun sample.round sample.convert
           "T" dsess.go_nil eq_refl 3 (sample.trackerWith "t" 10)).
  vm_compute. reflexivity.
Defined.

(** X4: the value [Next] hands out is always below the counter it leaves
    (so a value generated later is above every value handed out before),
    and the counter never goes down, as long as neither the insert value
    nor the counter is the largest uint64. *)
Theorem Next_returns_below_counter
    (lowerRun : string -> string)
    (math_Round : spec_float -> spec_float)
    (Uint64_Convert : dsess.GoValue -> Result (option N))
    (a : dsess.AutoIncrementTracker) (t : string) (v : dsess.GoValue) (given : N)
    (Hv : dsess.CoerceAutoIncrementValue math_Round Uint64_Convert v = Ok given)
    (Hgiven : (given + 1 < 2 ^ 64)%N)
    (Hcurr : (dsess.Current lowerRun a t + 1 < 2 ^ 64)%N) :
  exists r,
    (dsess.Next lowerRun math_Round Uint64_Convert a t v).1 = Ok r
    /\ (r < dsess.Current lowerRun
              (dsess.Next lowerRun math_Round Uint64_Convert a t v).2 t)%N
    /\ (dsess.Current lowerRun a t
        <= dsess.Current lowerRun
             (dsess.Next lowerRun math_Round Uint64_Convert a t v).2 t)%N.
Proof.
  destruct (N.eq_dec given 0%N) as [->|H0].
  - rewrite (Next_zero _ _ _ a t v Hv). cbn [fst snd]. eexists.
    split; [reflexivity|]. rewrite Current_set_seq, incr_small; [lia|].
    unfold dsess.uint64_modulus. lia.
  - destruct (N.le_gt_cases (dsess.Current lowerRun a t) given) as [Hle|Hgt].
    + rewrite (Next_catch_up _ _ _ a t v given Hv H0 Hle). cbn [fst snd].
      eexists. split; [reflexivity|].
      rewrite Current_set_seq, incr_small; [lia|].
      unfold dsess.uint64_modulus. lia.
    + rewrite (Next_below _ _ _ a t v given Hv H0 Hgt). cbn [fst snd].
      eexists. split; [reflexivity|]. lia.
Qed.

Lemma Next_returns_below_counter_witness :
  exists r,
    (sample.next (sample.trackerWith "t" 10) "t" (dsess.go_uint64 12)).1 = Ok r
    /\ (r < dsess.Current sample.lowerRun
              (sample.next (sample.trackerWith "t" 10) "t" (dsess.go_uint64 12)).2 "t")%N
    /\ (dsess.Current sample.lowerRun (sample.trackerWith "t" 10) "t"
        <= dsess.Current sample.lowerRun
             (sample.next (sample.trackerWith "t" 10) "t" (dsess.go_uint64 12)).2 "t")%N.
Proof.
  apply (Next_returns_below_counter sample.lowerRun sample.round sample.convert
           (sample.trackerWith "t" 10) "t" (dsess.go_uint64 12) 12 eq_refl);
    vm_compute; reflexivity.
Defined.

(** X5: at the largest uint64 the counter wraps: an insert value of
    2^64-1 is handed back and leaves the counter at 0, so the next
    generated value is 0. *)
Theorem Next_wraps_at_max_uint64
    (lowerRun : string -> string)
    (math_Round : spec_float -> spec_float)
    (Uint64_Convert : dsess.GoValue -> Result (option N))
    (a : dsess.AutoIncrementTracker) (t : string) (v v0 : dsess.GoValue)
    (Hv : dsess.CoerceAutoIncrementValue math_Round Uint64_Convert v
          = Ok (2 ^ 64 - 1)%N)
    (Hv0 : dsess.CoerceAutoIncrementValue math_Round Uint64_Convert v0 = Ok 0%N)
    (Hcurr : (dsess.Current lowerRun a t < 2 ^ 64)%N) :
  let r := dsess.Next lowerRun math_Round Uint64_Convert a t v in
  r.1 = Ok (2 ^ 64 - 1)%N
  /\ dsess.Current lowerRun r.2 t = 0%N
  /\ (dsess.Next lowerRun math_Round Uint64_Convert r.2 t v0).1 = Ok 0%N.
Proof.
  intros r. subst r.
  rewrite (Next_catch_up _ _ _ a t v _ Hv); [|discriminate|lia].
  cbn [fst snd].
  assert (H0 : dsess.Current lowerRun
                 (dsess.set_seq a (dsess.ToLower lowerRun t) (dsess.incr (2 ^ 64 - 1))) t
               = 0%N).
  { rewrite Current_set_seq. reflexivity. }
  repeat split; [exact H0|].
  rewrite (Next_zero _ _ _ _ t v0 Hv0). cbn [fst]. rewrite H0. reflexivity.
Qed.

Lemma Next_wraps_at_max_uint64_witness :
  (sample.next (sample.trackerWith "t" 10) "t"
     (dsess.go_uint64 18446744073709551615)).1 = Ok 18446744073709551615%N
  /\ dsess.Current sample.lowerRun
       (sample.next (sample.trackerWith "t" 10) "t"
          (dsess.go_uint64 18446744073709551615)).2 "t" = 0%N
  /\ (sample.next
        (sample.next (sample.trackerWith "t" 10) "t"
           (dsess.go_uint64 18446744073709551615)).2 "t" dsess.go_nil).1 = Ok 0%N.
Proof.
  apply (Next_wraps_at_max_uint64 sample.lowerRun sample.round sample.convert
           (sample.trackerWith "t" 10) "t"
           (dsess.go_uint64 18446744073709551615) dsess.go_nil eq_refl eq_refl).
  vm_compute. reflexivity.
Defined.

(** ** Set and deepSet *)

Section DeepSetFacts.

Variable lowerRun : string -> string.

Variable WorkingSetRefForHead : dsess.DoltRef -> Result dsess.WorkingSetRef.

(** The scan carries a lowercased name unchanged and never lowers the
    maximum it carries. *)
Lemma deepSetRef_carries (db : dsess.DoltDB) (ws : dsess.WorkingSetRef)
    (b : dsess.DoltRef) (tn tn' : string) (m m' : N) :
  dsess.ToLower lowerRun tn = tn ->
  dsess.deepSetRef lowerRun WorkingSetRefForHead db ws b (tn, m) = Ok (tn', m') ->
  tn' = tn /\ (m <= m')%N.
Proof.
  intros Hlow. unfold dsess.deepSetRef.
  destruct (dsess.selectRootish WorkingSetRefForHead db ws b)
    as [|e|[[root|e]|]]; try discriminate.
  - intros [= <- <-]. split; [reflexivity | lia].
  - destruct (dsess.GetTableInsensitive root tn) as [[table|]|e]; try discriminate.
    + destruct (dsess.GetSchema table) as [sch|e]; try discriminate.
      destruct (dsess.HasAutoIncrement sch); simpl.
      * destruct (dsess.GetAutoIncrementValue table) as [seq|e]; try discriminate.
        rewrite Hlow.
        destruct (N.ltb_spec m seq); intros [= <- <-]; split;
          reflexivity || lia.
      * intros [= <- <-]. split; [reflexivity | lia].
    + intros [= <- <-]. split; [reflexivity | lia].
Qed.

Lemma deepSetRefs_carries (db : dsess.DoltDB) (ws : dsess.WorkingSetRef)
    (refs : list dsess.DoltRef) :
  forall (tn tn' : string) (m m' : N),
    dsess.ToLower lowerRun tn = tn ->
    dsess.deepSetRefs lowerRun WorkingSetRefForHead db ws refs (tn, m) = Ok (tn', m') ->
    tn' = tn /\ (m <= m')%N.
Proof.
  induction refs as [|b rest IH]; intros tn tn' m m' Hlow;
    cbn [dsess.deepSetRefs].
  - intros [= <- <-]. split; [reflexivity | lia].
  - destruct (dsess.deepSetRef lowerRun WorkingSetRefForHead db ws b (tn, m))
      as [[tn1 m1]|e] eqn:H1; [|intros H; discriminate H].
    destruct (deepSetRef_carries db ws b tn tn1 m m1 Hlow H1) as [-> Hm].
    intros H2. destruct (IH tn tn' m1 m' Hlow H2) as [-> Hm']. split;
      [reflexivity | lia].
Qed.

Lemma deepSetDbs_carries (ws : dsess.WorkingSetRef) (dbs : list dsess.DoltDB) :
  forall (tn tn' : string) (m m' : N),
    dsess.ToLower lowerRun tn = tn ->
    dsess.deepSetDbs lowerRun WorkingSetRefForHead ws dbs (tn, m) = Ok (tn', m') ->
    tn' = tn /\ (m <= m')%N.
Proof.
  induction dbs as [|db rest IH]; intros tn tn' m m' Hlow;
    cbn [dsess.deepSetDbs].
  - intros [= <- <-]. split; [reflexivity | lia].
  - destruct (dsess.GetBranches db) as [branches|e]; [|intros H; discriminate H].
    destruct (dsess.GetRemoteRefs db) as [remotes|e]; [|intros H; discriminate H].
    destruct (dsess.deepSetRefs lowerRun WorkingSetRefForHead db ws
                (branches ++ remotes) (tn, m))
      as [[tn1 m1]|e] eqn:H1; [|intros H; discriminate H].
    destruct (deepSetRefs_carries db ws _ tn tn1 m m1 Hlow H1) as [-> Hm].
    intros H2. destruct (IH tn tn' m1 m' Hlow H2) as [-> Hm']. split;
      [reflexivity | lia].
Qed.

(** What [Set] leaves behind: the tracker it was given, or that tracker
    with the counter of the lowercased name set to a value at least
    [val]; the first only with an error or with a counter already at
    least [val].  [Set] and [deepSet] lowercase the name they were handed
    lowercased already; the key they write is the one [Current] reads
    when the second lowering changes nothing. *)
Lemma Set_outcomes (ctx : dsess.Context) (a : dsess.AutoIncrementTracker)
    (ws : dsess.WorkingSetRef) (t : string) (val : N) :
  dsess.ToLower lowerRun (dsess.ToLower lowerRun t) = dsess.ToLower lowerRun t ->
  let r := dsess.Set_ lowerRun WorkingSetRefForHead ctx a ws t val in
  (r.2 = a /\ (r.1 = None -> (val <= dsess.Current lowerRun a t)%N))
  \/ (exists m, r = (None, dsess.set_seq a (dsess.ToLower lowerRun t) m) /\ (val <= m)%N).
Proof.
  intros Hidem r. subst r. unfold dsess.Set_, dsess.deepSet.
  fold (dsess.Current lowerRun a t). rewrite Hidem.
  destruct (N.ltb_spec (dsess.Current lowerRun a t) val) as [Hlt|Hge].
  - right. exists val. split; [reflexivity | lia].
  - destruct (dsess.BaseDatabase ctx (dsess.dbName a)) as [db|];
      [|left; split; [reflexivity | intros _; exact Hge]].
    destruct (negb (dsess.Versioned db));
      [left; split; [reflexivity | intros _; exact Hge]|].
    destruct (dsess.deepSetDbs lowerRun _ _ _ _) as [[tn' m']|e] eqn:H.
    + destruct (deepSetDbs_carries ws _ _ tn' val m' Hidem H) as [-> Hm].
      right. exists m'. split; [reflexivity | exact Hm].
    + left. split; [reflexivity | discriminate].
Qed.

End DeepSetFacts.

(** X6: after a [Set] that returns no error the counter of the table is at
    least the value given.  [Set] lowercases the name twice before it
    writes (lines 153 and 157); [Hidem] says that on this name the second
    lowering changes nothing, as it does on every name of bytes below 128
    ([ToLower_idem_ASCII]). *)
Theorem Set_success_at_least
    (lowerRun : string -> string)
    (WorkingSetRefForHead : dsess.DoltRef -> Result dsess.WorkingSetRef)
    (ctx : dsess.Context) (a : dsess.AutoIncrementTracker)
    (ws : dsess.WorkingSetRef) (t : string) (val : N)
    (Hidem : dsess.ToLower lowerRun (dsess.ToLower lowerRun t)
             = dsess.ToLower lowerRun t)
    (Hok : (dsess.Set_ lowerRun WorkingSetRefForHead ctx a ws t val).1 = None) :
  (val <= dsess.Current lowerRun
            (dsess.Set_ lowerRun WorkingSetRefForHead ctx a ws t val).2 t)%N.
Proof.
  destruct (Set_outcomes lowerRun WorkingSetRefForHead ctx a ws t val Hidem)
    as [[H2 H1]|(m & Hr & Hm)].
  - rewrite H2. apply H1, Hok.
  - rewrite Hr. cbn [snd]. rewrite Current_set_seq. exact Hm.
Qed.

Lemma Set_success_at_least_witness :
  (3 <= dsess.Current sample.lowerRun
          (dsess.Set_ sample.lowerRun sample.wsRefForHead
             (sample.registry (sample.rootWith "t" 20) (Ok (sample.rootWith "t" 7)))
             (sample.trackerWith "t" 10) "workingSets/heads/main" "T" 3).2 "T")%N.
Proof.
  apply (Set_success_at_least sample.lowerRun sample.wsRefForHead
           (sample.registry (sample.rootWith "t" 20) (Ok (sample.rootWith "t" 7)))
           (sample.trackerWith "t" 10) "workingSets/heads/main" "T" 3).
  - reflexivity.
  - vm_compute. reflexivity.
Defined.

(** X7: [Set] on one table never touches the counter of a table whose
    name is lowered by [strings.ToLower] to another string, whether it
    assigns at once, scans the branches, or fails.  [Set] lowercases the
    name twice before it writes; [Hidem] says that on this name the second
    lowering changes nothing. *)
Theorem Set_other_tables_unchanged
    (lowerRun : string -> string)
    (WorkingSetRefForHead : dsess.DoltRef -> Result dsess.WorkingSetRef)
    (ctx : dsess.Context) (a : dsess.AutoIncrementTracker)
    (ws : dsess.WorkingSetRef) (t t' : string) (val : N)
    (Hidem : dsess.ToLower lowerRun (dsess.ToLower lowerRun t)
             = dsess.ToLower lowerRun t)
    (Hne : dsess.ToLower lowerRun t' <> dsess.ToLower lowerRun t) :
  dsess.Current lowerRun
    (dsess.Set_ lowerRun WorkingSetRefForHead ctx a ws t val).2 t'
  = dsess.Current lowerRun a t'.
Proof.
  destruct (Set_outcomes lowerRun WorkingSetRefForHead ctx a ws t val Hidem)
    as [[H2 _]|(m & Hr & _)].
  - rewrite H2. reflexivity.
  - rewrite Hr. cbn [snd]. apply Current_set_seq_other, Hne.
Qed.

Lemma Set_other_tables_unchanged_witness :
  dsess.Current sample.lowerRun
    (dsess.Set_ sample.lowerRun sample.wsRefForHead
       (sample.registry (sample.rootWith "t" 20) (Ok (sample.rootWith "t" 7)))
       (sample.trackerTwo 10 4) "workingSets/heads/main" "T" 3).2 "u"
  = dsess.Current sample.lowerRun (sample.trackerTwo 10 4) "u".
Proof.
  apply (Set_other_tables_unchanged sample.lowerRun sample.wsRefForHead
           (sample.registry (sample.rootWith "t" 20) (Ok (sample.rootWith "t" 7)))
           (sample.trackerTwo 10 4) "workingSets/heads/main" "T" "u" 3).
  - reflexivity.
  - intros H; discriminate H.
Defined.

(** X8: [Set] is all or nothing: when it returns an error, the tracker is
    exactly what it was. *)
Theorem Set_error_keeps_tracker
    (lowerRun : string -> string)
    (WorkingSetRefForHead : dsess.DoltRef -> Result dsess.WorkingSetRef)
    (ctx : dsess.Context) (a : dsess.AutoIncrementTracker)
    (ws : dsess.WorkingSetRef) (t : string) (val : N) (e : error)
    (Herr : (dsess.Set_ lowerRun WorkingSetRefForHead ctx a ws t val).1 = Some e) :
  (dsess.Set_ lowerRun WorkingSetRefForHead ctx a ws t val).2 = a.
Proof.
  exact (Set_error_unchanged lowerRun WorkingSetRefForHead ctx a ws t val e Herr).
Qed.

Lemma Set_error_keeps_tracker_witness :
  (dsess.Set_ sample.lowerRun sample.wsRefForHead
     (sample.registry (sample.rootWith "t" 20) (Err sample.cancelled))
     (sample.trackerWith "t" 10) "workingSets/heads/main" "T" 3).2
  = sample.trackerWith "t" 10.
Proof.
  apply (Set_error_keeps_tracker sample.lowerRun sample.wsRefForHead
           (sample.registry (sample.rootWith "t" 20) (Err sample.cancelled))
           (sample.trackerWith "t" 10) "workingSets/heads/main" "T" 3
           sample.cancelled).
  vm_compute. reflexivity.
Defined.

(** X9: once the value given is not above the counter, [Set] decides from
    the branches alone: in a versioned database two trackers whose
    counters are both at least [val] get the same answer and, on success,
    the same counter, whatever they held before.  [deepSet] lowercases
    the name again when a branch has the table; [Hidem] says that on this
    name the second lowering changes nothing. *)
Theorem Set_ignores_counter_in_memory
    (lowerRun : string -> string)
    (WorkingSetRefForHead : dsess.DoltRef -> Result dsess.WorkingSetRef)
    (ctx : dsess.Context) (a1 a2 : dsess.AutoIncrementTracker)
    (ws : dsess.WorkingSetRef) (t : string) (val : N) (db : dsess.SqlDatabase)
    (Hname : dsess.dbName a1 = dsess.dbName a2)
    (Hdb : dsess.BaseDatabase ctx (dsess.dbName a1) = Some db)
    (Hver : dsess.Versioned db = true)
    (Hidem : dsess.ToLower lowerRun (dsess.ToLower lowerRun t)
             = dsess.ToLower lowerRun t)
    (H1 : (val <= dsess.Current lowerRun a1 t)%N)
    (H2 : (val <= dsess.Current lowerRun a2 t)%N) :
  (dsess.Set_ lowerRun WorkingSetRefForHead ctx a1 ws t val).1
  = (dsess.Set_ lowerRun WorkingSetRefForHead ctx a2 ws t val).1
  /\ ((dsess.Set_ lowerRun WorkingSetRefForHead ctx a1 ws t val).1 = None ->
      dsess.Current lowerRun
        (dsess.Set_ lowerRun WorkingSetRefForHead ctx a1 ws t val).2 t
      = dsess.Current lowerRun
          (dsess.Set_ lowerRun WorkingSetRefForHead ctx a2 ws t val).2 t).
Proof.
  unfold dsess.Set_, dsess.deepSet.
  fold (dsess.Current lowerRun a1 t). fold (dsess.Current lowerRun a2 t).
  destruct (N.ltb_spec (dsess.Current lowerRun a1 t) val) as [?|_]; [lia|].
  destruct (N.ltb_spec (dsess.Current lowerRun a2 t) val) as [?|_]; [lia|].
  rewrite <- Hname, Hdb, Hver. cbn [negb].
  destruct (dsess.deepSetDbs lowerRun _ _ _ _) as [[tn' m']|e] eqn:H.
  - destruct (deepSetDbs_carries lowerRun WorkingSetRefForHead ws _ _ tn' val m'
                Hidem H) as [-> _].
    split; [reflexivity|]. intros _. cbn [snd].
    rewrite !Current_set_seq. reflexivity.
  - split; [reflexivity | discriminate].
Qed.

Lemma Set_ignores_counter_in_memory_witness :
  (dsess.Set_ sample.lowerRun sample.wsRefForHead
     (sample.registry (sample.rootWith "t" 20) (Ok (sample.rootWith "t" 7)))
     (sample.trackerWith "t" 10) "workingSets/heads/main" "T" 3).1
  = (dsess.Set_ sample.lowerRun sample.wsRefForHead
       (sample.registry (sample.rootWith "t" 20) (Ok (sample.rootWith "t" 7)))
       (sample.trackerWith "t" 99) "workingSets/heads/main" "T" 3).1
  /\ ((dsess.Set_ sample.lowerRun sample.wsRefForHead
         (sample.registry (sample.rootWith "t" 20) (Ok (sample.rootWith "t" 7)))
         (sample.trackerWith "t" 10) "workingSets/heads/main" "T" 3).1 = None ->
      dsess.Current sample.lowerRun
        (dsess.Set_ sample.lowerRun sample.wsRefForHead
           (sample.registry (sample.rootWith "t" 20) (Ok (sample.rootWith "t" 7)))
           (sample.trackerWith "t" 10) "workingSets/heads/main" "T" 3).2 "T"
      = dsess.Current sample.lowerRun
          (dsess.Set_ sample.lowerRun sample.wsRefForHead
             (sample.registry (sample.rootWith "t" 20) (Ok (sample.rootWith "t" 7)))
             (sample.trackerWith "t" 99) "workingSets/heads/main" "T" 3).2 "T").
Proof.
  apply (Set_ignores_counter_in_memory sample.lowerRun sample.wsRefForHead
           (sample.registry (sample.rootWith "t" 20) (Ok (sample.rootWith "t" 7)))
           (sample.trackerWith "t" 10) (sample.trackerWith "t" 99)
           "workingSets/heads/main" "T" 3
           (dsess.mkSqlDatabase true
              [dsess.mkDoltDB (Ok [sample.mainRef; sample.featureRef]) (Ok [])
                 (fun r => if String.eqb r "workingSets/heads/main"
                           then Ok (sample.workingSet (sample.rootWith "t" 20))
                           else Err dsess.ErrWorkingSetNotFound)
                 (fun _ => Ok (dsess.mkCommit (Ok (sample.rootWith "t" 7))))])
           eq_refl eq_refl eq_refl eq_refl);
    vm_compute; intros H; discriminate H.
Defined.

(** ** DropTable *)

Lemma fold_max_shift (l : list N) (c s : N) :
  fold_right N.max (N.max c s) l = N.max s (fold_right N.max c l).
Proof. induction l as [|x l IH]; simpl; [lia | rewrite IH; lia]. Qed.

(** The scan of [DropTable], from any tracker: it fails with the first
    failing read, or raises the counter of the name to the largest value
    read. *)
Lemma dropScan_readings (wses : list dsess.WorkingSet) (k : string) :
  forall a : dsess.AutoIncrementTracker,
    match spec.dropReadings wses k with
    | Err e => (dsess.dropScan wses k a).1 = Some e
    | Ok l =>
        (dsess.dropScan wses k a).1 = None
        /\ dsess.seq_get (dsess.sequences (dsess.dropScan wses k a).2) k
           = fold_right N.max (dsess.seq_get (dsess.sequences a) k) l
    end.
Proof.
  induction wses as [|ws rest IH]; intros a; cbn [spec.dropReadings dsess.dropScan].
  - split; reflexivity.
  - destruct (dsess.GetTableInsensitive (dsess.WorkingRoot ws) k)
      as [[table|]|e]; [| apply IH | reflexivity].
    destruct (dsess.GetSchema table) as [sch|e]; [|reflexivity].
    destruct (dsess.HasAutoIncrement sch); [|apply IH].
    destruct (dsess.GetAutoIncrementValue table) as [seq|e]; [|reflexivity].
    destruct (N.ltb_spec (dsess.seq_get (dsess.sequences a) k) seq) as [Hlt|Hge].
    + specialize (IH (dsess.set_seq a k seq)).
      destruct (spec.dropReadings rest k) as [l|e]; [|exact IH].
      destruct IH as [-> ->]. split; [reflexivity|]. cbn [fold_right].
      cbn [dsess.set_seq dsess.sequences]. rewrite seq_get_insert_eq.
      replace seq with (N.max (dsess.seq_get (dsess.sequences a) k) seq) at 1 by lia.
      apply fold_max_shift.
    + specialize (IH a).
      destruct (spec.dropReadings rest k) as [l|e]; [|exact IH].
      destruct IH as [-> ->]. split; [reflexivity|]. cbn [fold_right].
      replace (dsess.seq_get (dsess.sequences a) k)
        with (N.max (dsess.seq_get (dsess.sequences a) k) seq) at 1 by lia.
      apply fold_max_shift.
Qed.

(** The scan never lowers the counter of the name and reads or writes no
    other key, whether it ends well or not. *)
Lemma dropScan_frame (wses : list dsess.WorkingSet) (k : string) :
  forall a : dsess.AutoIncrementTracker,
    (dsess.seq_get (dsess.sequences a) k
     <= dsess.seq_get (dsess.sequences (dsess.dropScan wses k a).2) k)%N
    /\ forall k', k' <> k ->
         dsess.seq_get (dsess.sequences (dsess.dropScan wses k a).2) k'
         = dsess.seq_get (dsess.sequences a) k'.
Proof.
  induction wses as [|ws rest IH]; intros a; cbn [dsess.dropScan].
  - split; [apply N.le_refl | reflexivity].
  - destruct (dsess.GetTableInsensitive (dsess.WorkingRoot ws) k)
      as [[table|]|e]; [| apply IH | split; [cbn [snd]; apply N.le_refl | reflexivity]].
    destruct (dsess.GetSchema table) as [sch|e]; [|split; [cbn [snd]; apply N.le_refl | reflexivity]].
    destruct (dsess.HasAutoIncrement sch); [|apply IH].
    destruct (dsess.GetAutoIncrementValue table) as [seq|e];
      [|split; [cbn [snd]; apply N.le_refl | reflexivity]].
    destruct (N.ltb_spec (dsess.seq_get (dsess.sequences a) k) seq) as [Hlt|Hge];
      [|apply IH].
    destruct (IH (dsess.set_seq a k seq)) as [H1 H2].
    cbn [dsess.set_seq dsess.sequences] in H1, H2.
    rewrite seq_get_insert_eq in H1. split; [lia|].
    intros k' Hne. rewrite (H2 k' Hne). apply seq_get_insert_ne. congruence.
Qed.

(** X10: [DropTable] either meets a failing read and returns its error,
    or returns no error and leaves the counter of the table at the largest
    of 1 and the persisted values of that table in the working sets given
    that have it with an AUTO_INCREMENT column; the value the counter had
    before plays no part. *)
Theorem DropTable_resets_to_max
    (lowerRun : string -> string)
    (a : dsess.AutoIncrementTracker) (t : string)
    (wses : list dsess.WorkingSet) :
  match spec.dropReadings wses (dsess.ToLower lowerRun t) with
  | Err e => (dsess.DropTable lowerRun a t wses).1 = Some e
  | Ok l =>
      (dsess.DropTable lowerRun a t wses).1 = None
      /\ dsess.Current lowerRun (dsess.DropTable lowerRun a t wses).2 t = spec.maxFrom1 l
  end.
Proof.
  unfold dsess.DropTable, dsess.Current.
  pose proof (dropScan_readings wses (dsess.ToLower lowerRun t)
                (dsess.set_seq a (dsess.ToLower lowerRun t) 1)) as H.
  destruct (spec.dropReadings wses (dsess.ToLower lowerRun t)) as [l|e]; [|exact H].
  destruct H as [-> ->]. split; [reflexivity|].
  cbn [dsess.set_seq dsess.sequences]. rewrite seq_get_insert_eq. reflexivity.
Qed.

(** X11: whatever [DropTable] returns, it leaves the counter of the table
    at 1 or more and, as it was, the counter of every table whose name
    [strings.ToLower] sends to another string. *)
Theorem DropTable_floor_and_frame
    (lowerRun : string -> string)
    (a : dsess.AutoIncrementTracker) (t : string)
    (wses : list dsess.WorkingSet) :
  (1 <= dsess.Current lowerRun (dsess.DropTable lowerRun a t wses).2 t)%N
  /\ (forall t', dsess.ToLower lowerRun t' <> dsess.ToLower lowerRun t ->
                 dsess.Current lowerRun (dsess.DropTable lowerRun a t wses).2 t'
                 = dsess.Current lowerRun a t').
Proof.
  unfold dsess.DropTable, dsess.Current.
  destruct (dropScan_frame wses (dsess.ToLower lowerRun t)
              (dsess.set_seq a (dsess.ToLower lowerRun t) 1)) as [H1 H2].
  cbn [dsess.set_seq dsess.sequences] in H1, H2.
  rewrite seq_get_insert_eq in H1. split; [exact H1|].
  intros t' Hne. rewrite (H2 _ Hne). apply seq_get_insert_ne. congruence.
Qed.

(** ** The constructor and the order of the roots *)

Lemma readings_cons
    (lowerRun : string -> string)
    (r : dsess.Rootish) (rest : list dsess.Rootish)
    (l : list (string * N)) :
  spec.readings lowerRun (r :: rest) = Ok l <->
  exists root lx l1,
    dsess.ResolveRootValue r = Ok root
    /\ spec.rootReadings lowerRun (dsess.tables root) = Ok lx
    /\ spec.readings lowerRun rest = Ok l1 /\ l = lx ++ l1.
Proof.
  cbn [spec.readings]. split.
  - destruct (dsess.ResolveRootValue r) as [root|e]; [|discriminate].
    destruct (spec.rootReadings lowerRun (dsess.tables root)) as [lx|e] eqn:Hx;
      [|discriminate].
    destruct (spec.readings lowerRun rest) as [l1|e]; [|discriminate].
    intros [= <-]. exists root, lx, l1. auto.
  - intros (root & lx & l1 & -> & -> & -> & ->). reflexivity.
Qed.

Lemma readings_Permutation
    (lowerRun : string -> string)
    (roots roots' : list dsess.Rootish) :
  Permutation roots roots' ->
  forall l, spec.readings lowerRun roots = Ok l ->
  exists l', spec.readings lowerRun roots' = Ok l'
             /\ forall k, spec.maxFor k l' = spec.maxFor k l.
Proof.
  induction 1 as [|x xs ys _ IH|x y xs|xs ys zs _ IH1 _ IH2]; intros l Hl.
  - exists l. auto.
  - apply readings_cons in Hl as (root & lx & l1 & Hr & Hx & H1 & ->).
    destruct (IH l1 H1) as (l1' & H1' & Hmax).
    exists (lx ++ l1'). split.
    + apply readings_cons. exists root, lx, l1'. auto.
    + intros k. rewrite !maxFor_app, Hmax. reflexivity.
  - apply readings_cons in Hl as (ry & ly & l0 & Hry & Hy & H0 & ->).
    apply readings_cons in H0 as (rx & lx & l1 & Hrx & Hx & H1 & ->).
    exists (lx ++ ly ++ l1). split.
    + apply readings_cons. exists rx, lx, (ly ++ l1). repeat split; auto.
      apply readings_cons. exists ry, ly, l1. auto.
    + intros k. rewrite !maxFor_app. lia.
  - destruct (IH1 l Hl) as (l1 & H1 & Hm1).
    destruct (IH2 l1 H1) as (l2 & H2 & Hm2).
    exists l2. split; [exact H2|]. intros k. rewrite Hm2. apply Hm1.
Qed.

(** X12: the order in which the roots are given does not matter to a
    construction that succeeds: any permutation of the roots also builds
    a tracker, with the same counter for every table. *)
Theorem NewAutoIncrementTracker_any_order (lowerRun : string -> string) (db : string)
    (roots roots' : list dsess.Rootish) (a : dsess.AutoIncrementTracker)
    (Hperm : Permutation roots roots')
    (Hnew : dsess.NewAutoIncrementTracker lowerRun db roots = Ok a) :
  exists a',
    dsess.NewAutoIncrementTracker lowerRun db roots' = Ok a'
    /\ forall t, dsess.Current lowerRun a' t = dsess.Current lowerRun a t.
Proof.
  unfold dsess.NewAutoIncrementTracker in *.
  pose proof (initRoots_readings lowerRun roots ∅) as H.
  destruct (spec.readings lowerRun roots) as [l|e] eqn:Hl;
    [|rewrite H in Hnew; discriminate Hnew].
  destruct H as (seqs & Hs & Hget). rewrite Hs in Hnew. injection Hnew as <-.
  destruct (readings_Permutation lowerRun roots roots' Hperm l Hl) as (l' & Hl' & Hmax).
  pose proof (initRoots_readings lowerRun roots' ∅) as H'. rewrite Hl' in H'.
  destruct H' as (seqs' & -> & Hget'). eexists. split; [reflexivity|].
  intros t. unfold dsess.Current. cbn [dsess.sequences].
  rewrite Hget, Hget', Hmax. reflexivity.
Qed.

Lemma NewAutoIncrementTracker_any_order_witness :
  exists a',
    dsess.NewAutoIncrementTracker sample.lowerRun "db"
      [dsess.mkRootish (Ok (sample.rootWith "t" 9));
       dsess.mkRootish (Ok (sample.rootWith "T" 5))] = Ok a'
    /\ forall t, dsess.Current sample.lowerRun a' t
                 = dsess.Current sample.lowerRun (sample.trackerWith "t" 9) t.
Proof.
  apply (NewAutoIncrementTracker_any_order sample.lowerRun "db"
           [dsess.mkRootish (Ok (sample.rootWith "T" 5));
            dsess.mkRootish (Ok (sample.rootWith "t" 9))]).
  - apply perm_swap.
  - vm_compute. reflexivity.
Defined.

(** ** The working set that [Set] is called for *)

Section OwningWorkingSet.

Variable lowerRun : string -> string.

Variable WorkingSetRefForHead : dsess.DoltRef -> Result dsess.WorkingSetRef.
Variable ws : dsess.WorkingSetRef.

Lemma selectRootish_agreeOff (d d' : dsess.DoltDB) (b : dsess.DoltRef) :
  spec.agreeOff ws d d' ->
  dsess.selectRootish WorkingSetRefForHead d ws b
  = dsess.selectRootish WorkingSetRefForHead d' ws b.
Proof.
  intros (_ & _ & Hcm & Hws). unfold dsess.selectRootish.
  destruct (dsess.GetType b); try reflexivity.
  - destruct (WorkingSetRefForHead b) as [wsRef|e]; [|reflexivity].
    destruct (String.eqb_spec wsRef ws) as [|Hne]; [reflexivity|].
    rewrite (Hws wsRef Hne), (Hcm b). reflexivity.
  - rewrite (Hcm b). reflexivity.
Qed.

Lemma deepSetRefs_agreeOff (d d' : dsess.DoltDB) (refs : list dsess.DoltRef) :
  spec.agreeOff ws d d' ->
  forall st,
    dsess.deepSetRefs lowerRun WorkingSetRefForHead d ws refs st
    = dsess.deepSetRefs lowerRun WorkingSetRefForHead d' ws refs st.
Proof.
  intros Hag. induction refs as [|b rest IH]; intros st; [reflexivity|].
  cbn [dsess.deepSetRefs]. unfold dsess.deepSetRef.
  rewrite (selectRootish_agreeOff d d' b Hag).
  destruct st as [tn m].
  destruct (dsess.selectRootish WorkingSetRefForHead d' ws b)
    as [|e|[[root|e]|]]; try reflexivity.
  - apply IH.
  - destruct (dsess.GetTableInsensitive root tn) as [[table|]|e];
      try reflexivity; [|apply IH].
    destruct (dsess.GetSchema table) as [sch|e]; [|reflexivity].
    destruct (negb (dsess.HasAutoIncrement sch)); [apply IH|].
    destruct (dsess.GetAutoIncrementValue table) as [seq|e]; [|reflexivity].
    destruct (m <? seq)%N; apply IH.
Qed.

Lemma deepSetDbs_agreeOff (dbs dbs' : list dsess.DoltDB) :
  Forall2 (spec.agreeOff ws) dbs dbs' ->
  forall st,
    dsess.deepSetDbs lowerRun WorkingSetRefForHead ws dbs st
    = dsess.deepSetDbs lowerRun WorkingSetRefForHead ws dbs' st.
Proof.
  induction 1 as [|d d' dbs dbs' Hag _ IH]; intros st; [reflexivity|].
  cbn [dsess.deepSetDbs].
  pose proof Hag as (Hb & Hr & _). rewrite <- Hb, <- Hr.
  destruct (dsess.GetBranches d) as [branches|e]; [|reflexivity].
  destruct (dsess.GetRemoteRefs d) as [remotes|e]; [|reflexivity].
  rewrite (deepSetRefs_agreeOff d d' _ Hag).
  destruct (dsess.deepSetRefs lowerRun WorkingSetRefForHead d' ws (branches ++ remotes) st)
    as [st'|e]; [apply IH | reflexivity].
Qed.

End OwningWorkingSet.

(** X13: [Set] never reads the working set it is called for: two
    registries whose databases answer alike except when asked to resolve
    that working set give the same result and the same tracker. *)
Theorem Set_skips_owning_working_set
    (lowerRun : string -> string)
    (WorkingSetRefForHead : dsess.DoltRef -> Result dsess.WorkingSetRef)
    (ctx ctx' : dsess.Context) (a : dsess.AutoIncrementTracker)
    (ws : dsess.WorkingSetRef) (t : string) (val : N)
    (db db' : dsess.SqlDatabase)
    (Hdb : dsess.BaseDatabase ctx (dsess.dbName a) = Some db)
    (Hdb' : dsess.BaseDatabase ctx' (dsess.dbName a) = Some db')
    (Hver : dsess.Versioned db = dsess.Versioned db')
    (Hag : Forall2 (spec.agreeOff ws) (dsess.DoltDatabases db) (dsess.DoltDatabases db')) :
  dsess.Set_ lowerRun WorkingSetRefForHead ctx a ws t val
  = dsess.Set_ lowerRun WorkingSetRefForHead ctx' a ws t val.
Proof.
  unfold dsess.Set_, dsess.deepSet. rewrite Hdb, Hdb', Hver.
  rewrite (deepSetDbs_agreeOff lowerRun WorkingSetRefForHead ws _ _ Hag). reflexivity.
Qed.

Lemma Set_skips_owning_working_set_witness :
  dsess.Set_ sample.lowerRun sample.wsRefForHead
    (sample.registry (sample.rootWith "t" 20) (Ok (sample.rootWith "t" 7)))
    (sample.trackerWith "t" 10) "workingSets/heads/main" "T" 3
  = dsess.Set_ sample.lowerRun sample.wsRefForHead
      (sample.registry sample.failingRoot (Ok (sample.rootWith "t" 7)))
      (sample.trackerWith "t" 10) "workingSets/heads/main" "T" 3.
Proof.
  eapply Set_skips_owning_working_set; try reflexivity.
  cbn [dsess.DoltDatabases]. constructor; [|constructor].
  repeat split. intros r Hne. cbn [dsess.ResolveWorkingSet].
  destruct (String.eqb_spec r "workingSets/heads/main"); [contradiction|reflexivity].
Defined.

(** * Further properties of the comparator *)

Lemma string_compare_refl (s : string) : String.compare s s = Eq.
Proof.
  pose proof (String.compare_antisym s s) as H.
  destruct (String.compare s s); simpl in H; congruence.
Qed.

Lemma string_compare_lt_trans (a b c : string) :
  String.compare a b = Lt -> String.compare b c = Lt -> String.compare a c = Lt.
Proof.
  intros Hab Hbc.
  assert (Hgt : String.compare a c <> Gt).
  { apply (string_compare_not_gt_trans a b c); congruence. }
  destruct (String.compare a c) eqn:Hac; [|reflexivity|congruence].
  apply String.compare_eq_iff in Hac. subst c.
  rewrite (String.compare_antisym b a), Hab in Hbc. discriminate Hbc.
Qed.

Lemma float_lt_trans (a b c : spec_float) :
  types.float_lt a b = true -> types.float_lt b c = true ->
  types.float_lt a c = true.
Proof.
  intros Hab Hbc. destruct (types.float_lt a c) eqn:Hac; [reflexivity|].
  assert (Ha : a <> S754_nan) by (intros ->; discriminate Hab).
  pose proof (float_not_gt_trans c a b Ha Hac (float_lt_asym a b Hab)) as H.
  unfold types.float_gt in H. unfold types.float_lt in Hbc. congruence.
Qed.

Section StrictOrder.

Context {A : Type} (less : A -> A -> Result bool).
Hypothesis less_ok : spec.StrictWeak less.

Lemma threeway_lt_iff (a b : A) :
  spec.threeway less a b = Ok (-1) <-> less a b = Ok true.
Proof.
  unfold spec.threeway. split.
  - destruct (less a b) as [[|]|]; try discriminate; [reflexivity|].
    destruct (less b a) as [[|]|]; discriminate.
  - intros ->. reflexivity.
Qed.

Lemma less_trans (a b c : A) :
  less a b = Ok true -> less b c = Ok true -> less a c = Ok true.
Proof.
  intros Hab Hbc.
  destruct (spec.less_total less less_ok a c) as [[|] Hac]; [exact Hac|].
  pose proof (spec.less_asym less less_ok b c Hbc) as Hcb.
  pose proof (spec.less_negtrans less less_ok a c b Hac Hcb). congruence.
Qed.

End StrictOrder.

Section ComparatorStrict.

Variable List_Less : list types.Value -> list types.Value -> Result bool.
Variable Map_Less :
  list (types.Value * types.Value) -> list (types.Value * types.Value) -> Result bool.
Hypothesis List_Less_ok : spec.StrictWeak List_Less.
Hypothesis Map_Less_ok : spec.StrictWeak Map_Less.

Local Abbreviation cmp := (types.compareJSON List_Less Map_Less).

Lemma compareJSON_same (a : types.Value) :
  types.isJSON a = true -> cmp a a = Ok 0.
Proof.
  intros Ha.
  destruct (compareJSON_defined_antisym List_Less Map_Less
              List_Less_ok Map_Less_ok a a Ha Ha) as (z & Hz & _ & Hz').
  rewrite Hz in Hz'. injection Hz' as Hz'. rewrite Hz. f_equal. lia.
Qed.

Lemma compareJSON_lt_trans (a b c : types.Value) :
  types.isJSON a = true -> types.isJSON b = true -> types.isJSON c = true ->
  cmp a b = Ok (-1) -> cmp b c = Ok (-1) -> cmp a c = Ok (-1).
Proof.
  intros Ha Hb Hc Hab Hbc.
  assert (Pab : spec.precedence a <= spec.precedence b).
  { apply (compareJSON_at_most_zero_precedence List_Less Map_Less a b Ha Hb).
    exists (-1). split; [exact Hab | lia]. }
  assert (Pbc : spec.precedence b <= spec.precedence c).
  { apply (compareJSON_at_most_zero_precedence List_Less Map_Less b c Hb Hc).
    exists (-1). split; [exact Hbc | lia]. }
  destruct (Z.eq_dec (spec.precedence a) (spec.precedence c)) as [Pac|Pac];
    [|apply (compareJSON_cross List_Less Map_Less a c Ha Hc); lia].
  destruct a as [|x|x|x|x|x|x|x], b as [|y|y|y|y|y|y|y],
           c as [|z|z|z|z|z|z|z];
    simpl in Pab, Pbc, Pac, Ha, Hb, Hc; try discriminate; try lia.
  - destruct x, y, z; cbv in Hab, Hbc; try discriminate Hab;
      discriminate Hbc.
  - rewrite compareJSON_number_number in *.
    destruct (types.float_lt y x) eqn:Hyx; [discriminate Hab|].
    destruct (types.float_lt x y) eqn:Hxy; [|discriminate Hab].
    destruct (types.float_lt z y) eqn:Hzy; [discriminate Hbc|].
    destruct (types.float_lt y z) eqn:Hyz; [|discriminate Hbc].
    rewrite (float_lt_trans x y z Hxy Hyz).
    rewrite (float_lt_asym x z (float_lt_trans x y z Hxy Hyz)). reflexivity.
  - change (cmp (types.String x) (types.String z))
      with (Ok (A:=Z) (types.strings_Compare x z)).
    change (cmp (types.String x) (types.String y))
      with (Ok (A:=Z) (types.strings_Compare x y)) in Hab.
    change (cmp (types.String y) (types.String z))
      with (Ok (A:=Z) (types.strings_Compare y z)) in Hbc.
    unfold types.strings_Compare in *.
    destruct (String.compare x y) eqn:Hxy; try discriminate Hab.
    destruct (String.compare y z) eqn:Hyz; try discriminate Hbc.
    rewrite (string_compare_lt_trans x y z Hxy Hyz). reflexivity.
  - change (cmp (types.List x) (types.List z)) with (spec.threeway List_Less x z).
    change (cmp (types.List x) (types.List y))
      with (spec.threeway List_Less x y) in Hab.
    change (cmp (types.List y) (types.List z))
      with (spec.threeway List_Less y z) in Hbc.
    apply (threeway_lt_iff List_Less) in Hab, Hbc.
    apply (threeway_lt_iff List_Less).
    apply (less_trans List_Less List_Less_ok x y z Hab Hbc).
  - change (cmp (types.Map x) (types.Map z)) with (spec.threeway Map_Less x z).
    change (cmp (types.Map x) (types.Map y))
      with (spec.threeway Map_Less x y) in Hab.
    change (cmp (types.Map y) (types.Map z))
      with (spec.threeway Map_Less y z) in Hbc.
    apply (threeway_lt_iff Map_Less) in Hab, Hbc.
    apply (threeway_lt_iff Map_Less).
    apply (less_trans Map_Less Map_Less_ok x y z Hab Hbc).
Qed.

End ComparatorStrict.

(** X14: a legal JSON value compares equal to itself, a NaN float and
    containers included, when the [Less] methods of lists and maps never
    fail and are strict weak orders. *)
Theorem compareJSON_reflexive
    (List_Less : list types.Value -> list types.Value -> Result bool)
    (Map_Less : list (types.Value * types.Value) ->
                list (types.Value * types.Value) -> Result bool)
    (HL : spec.StrictWeak List_Less) (HM : spec.StrictWeak Map_Less)
    (a : types.Value) (Ha : types.isJSON a = true) :
  types.compareJSON List_Less Map_Less a a = Ok 0.
Proof. apply compareJSON_same; assumption. Qed.

Lemma compareJSON_reflexive_witness :
  sample.cmp (types.List [types.Float S754_nan; types.String "a"])
    (types.List [types.Float S754_nan; types.String "a"]) = Ok 0.
Proof.
  apply (compareJSON_reflexive sample.shorter sample.shorter
           (shorter_StrictWeak _) (shorter_StrictWeak _)).
  reflexivity.
Defined.

(** X15: "strictly below" is transitive on all legal JSON values, NaN
    floats included: [compareJSON a b = -1] and [compareJSON b c = -1]
    give [compareJSON a c = -1], when the [Less] methods of lists and maps
    never fail and are strict weak orders. *)
Theorem compareJSON_strictly_below_transitive
    (List_Less : list types.Value -> list types.Value -> Result bool)
    (Map_Less : list (types.Value * types.Value) ->
                list (types.Value * types.Value) -> Result bool)
    (HL : spec.StrictWeak List_Less) (HM : spec.StrictWeak Map_Less)
    (a b c : types.Value)
    (Ha : types.isJSON a = true) (Hb : types.isJSON b = true)
    (Hc : types.isJSON c = true)
    (Hab : types.compareJSON List_Less Map_Less a b = Ok (-1))
    (Hbc : types.compareJSON List_Less Map_Less b c = Ok (-1)) :
  types.compareJSON List_Less Map_Less a c = Ok (-1).
Proof. apply (compareJSON_lt_trans _ _ HL HM a b c); assumption. Qed.

Lemma compareJSON_strictly_below_transitive_witness :
  sample.cmp types.Null (types.String "abc") = Ok (-1).
Proof.
  apply (compareJSON_strictly_below_transitive sample.shorter sample.shorter
           (shorter_StrictWeak _) (shorter_StrictWeak _)
           types.Null (types.Float S754_nan) (types.String "abc"));
    reflexivity.
Defined.

(** X16: with [Less] methods that never fail, the comparator returns an
    error exactly when its left operand is of no JSON kind and its right
    operand is not null.  An illegal right operand alone is never
    reported: it answers +1 to every legal left operand that is not null,
    and -1 to null; and an illegal left operand against null answers +1. *)
Theorem compareJSON_error_iff
    (List_Less : list types.Value -> list types.Value -> Result bool)
    (Map_Less : list (types.Value * types.Value) ->
                list (types.Value * types.Value) -> Result bool)
    (HL : forall x y, exists r, List_Less x y = Ok r)
    (HM : forall x y, exists r, Map_Less x y = Ok r)
    (a b : types.Value) :
  ((exists e, types.compareJSON List_Less Map_Less a b = Err e)
   <-> (types.isJSON a = false /\ b <> types.Null))
  /\ (types.isJSON a = true -> a <> types.Null -> types.isJSON b = false ->
      types.compareJSON List_Less Map_Less a b = Ok 1)
  /\ (types.isJSON b = false ->
      types.compareJSON List_Less Map_Less types.Null b = Ok (-1))
  /\ (types.isJSON a = false ->
      types.compareJSON List_Less Map_Less a types.Null = Ok 1).
Proof.
  split; [|split; [|split]].
  2: { intros Ha Hn Hb.
       destruct a; try discriminate Ha; try congruence;
         destruct b; try discriminate Hb; reflexivity. }
  2: { intros Hb. destruct b; try discriminate Hb; reflexivity. }
  2: { intros Ha. destruct a; try discriminate Ha; reflexivity. }
  split.
  - intros [e He]. destruct (types.isJSON a) eqn:Ha.
    + exfalso.
      destruct a as [|x|x|x|x|x|x|x], b as [|y|y|y|y|y|y|y];
        try discriminate Ha; simpl in He; try discriminate He;
        try (destruct x, y; discriminate He).
      * rewrite compareJSON_number_number in He.
        destruct (types.float_lt y x); [discriminate He|].
        destruct (types.float_lt x y); discriminate He.
      * change (spec.threeway List_Less x y = Err e) in He.
        unfold spec.threeway in He.
        destruct (HL x y) as [[|] H1]; rewrite H1 in He; [discriminate He|].
        destruct (HL y x) as [[|] H2]; rewrite H2 in He; discriminate He.
      * change (spec.threeway Map_Less x y = Err e) in He.
        unfold spec.threeway in He.
        destruct (HM x y) as [[|] H1]; rewrite H1 in He; [discriminate He|].
        destruct (HM y x) as [[|] H2]; rewrite H2 in He; discriminate He.
    + split; [reflexivity|]. intros ->.
      destruct a; try discriminate Ha; discriminate He.
  - intros [Ha Hb].
    destruct a; try discriminate Ha; destruct b; try congruence;
      eexists; reflexivity.
Qed.

Lemma compareJSON_error_iff_witness :
  ((exists e, sample.cmp (types.Int 3) (types.Bool true) = Err e)
   <-> (types.isJSON (types.Int 3) = false /\ types.Bool true <> types.Null))
  /\ sample.cmp (types.Bool true) (types.Int 3) = Ok 1
  /\ sample.cmp types.Null (types.Int 3) = Ok (-1)
  /\ sample.cmp (types.Int 3) types.Null = Ok 1.
Proof.
  assert (HL : forall x y : list types.Value, exists r, sample.shorter x y = Ok r)
    by (intros x y; eexists; reflexivity).
  assert (HM : forall x y : list (types.Value * types.Value),
             exists r, sample.shorter x y = Ok r)
    by (intros x y; eexists; reflexivity).
  destruct (compareJSON_error_iff sample.shorter sample.shorter HL HM
              (types.Int 3) (types.Bool true)) as (Hiff & _ & _ & _).
  destruct (compareJSON_error_iff sample.shorter sample.shorter HL HM
              (types.Bool true) (types.Int 3)) as (_ & Hright & Hnull & _).
  destruct (compareJSON_error_iff sample.shorter sample.shorter HL HM
              (types.Int 3) types.Null) as (_ & _ & _ & Hleft).
  split; [exact Hiff|]. split; [|split].
  - apply Hright; [reflexivity | intros H; discriminate H | reflexivity].
  - apply Hnull. reflexivity.
  - apply Hleft. reflexivity.
Defined.

(** X17: on null, booleans and strings the answer 0 means the same
    value: [compareJSON a b = 0] exactly when [a = b]. *)
Theorem compareJSON_zero_iff_equal
    (List_Less : list types.Value -> list types.Value -> Result bool)
    (Map_Less : list (types.Value * types.Value) ->
                list (types.Value * types.Value) -> Result bool)
    (a b : types.Value)
    (Ha : spec.isExact a = true) (Hb : spec.isExact b = true) :
  types.compareJSON List_Less Map_Less a b = Ok 0 <-> a = b.
Proof.
  destruct a as [|x|x|x|x|x|x|x], b as [|y|y|y|y|y|y|y];
    try discriminate Ha; try discriminate Hb;
    try (split; [intros H; discriminate H | intros H; discriminate H]).
  - split; reflexivity.
  - destruct x, y; split; intros H; try reflexivity; discriminate H.
  - change (types.compareJSON List_Less Map_Less (types.String x) (types.String y))
      with (Ok (A:=Z) (types.strings_Compare x y)).
    unfold types.strings_Compare. split.
    + destruct (String.compare x y) eqn:Hxy; try discriminate.
      intros _. f_equal. apply String.compare_eq_iff, Hxy.
    + intros [= ->]. rewrite string_compare_refl. reflexivity.
Qed.

Lemma compareJSON_zero_iff_equal_witness :
  sample.cmp (types.String "abc") (types.String "abd") = Ok 0
  <-> types.String "abc" = types.String "abd".
Proof.
  apply (compareJSON_zero_iff_equal sample.shorter sample.shorter); reflexivity.
Defined.

(** X18: values of different JSON types are ordered by type alone, along
    Null < Number < String < Object < Array < Bool: the lower type answers
    -1 and the higher +1, whatever the two values are. *)
Theorem compareJSON_type_ladder
    (List_Less : list types.Value -> list types.Value -> Result bool)
    (Map_Less : list (types.Value * types.Value) ->
                list (types.Value * types.Value) -> Result bool)
    (a b : types.Value)
    (Ha : types.isJSON a = true) (Hb : types.isJSON b = true)
    (Hlt : spec.precedence a < spec.precedence b) :
  types.compareJSON List_Less Map_Less a b = Ok (-1)
  /\ types.compareJSON List_Less Map_Less b a = Ok 1.
Proof. apply compareJSON_cross; assumption. Qed.

Lemma compareJSON_type_ladder_witness :
  sample.cmp (types.String "zzz") (types.Map []) = Ok (-1)
  /\ sample.cmp (types.Map []) (types.String "zzz") = Ok 1.
Proof.
  apply (compareJSON_type_ladder sample.shorter sample.shorter); reflexivity.
Defined.

(** X19: a NaN compares equal to every number, on either side. *)
Theorem compareJSON_NaN_equals_every_number
    (List_Less : list types.Value -> list types.Value -> Result bool)
    (Map_Less : list (types.Value * types.Value) ->
                list (types.Value * types.Value) -> Result bool)
    (x : spec_float) :
  types.compareJSON List_Less Map_Less (types.Float S754_nan) (types.Float x) = Ok 0
  /\ types.compareJSON List_Less Map_Less (types.Float x) (types.Float S754_nan) = Ok 0.
Proof.
  rewrite !compareJSON_number_number. unfold types.float_lt, SFltb.
  rewrite (SFcompare_antisym S754_nan x). simpl. split; reflexivity.
Qed.

(** ** Documents under [Less] *)

(** X20: on documents whose inner values decode to legal JSON values,
    [JSONDoc.Less] is a strict order: no document is below itself, two
    documents are never below each other, and below is transitive (when
    the [Less] methods of lists and maps never fail and are strict weak
    orders). *)
Theorem JSONDoc_Less_strict_order
    (List_Less : list types.Value -> list types.Value -> Result bool)
    (Map_Less : list (types.Value * types.Value) ->
                list (types.Value * types.Value) -> Result bool)
    (skipKind skipCount : list Byte.byte -> list Byte.byte)
    (readValue : list Byte.byte -> Result types.Value)
    (kindNumber : types.NomsKind -> N)
    (HL : spec.StrictWeak List_Less) (HM : spec.StrictWeak Map_Less)
    (a b c : types.JSONDoc)
    (Ha : spec.holdsJSON (types.Inner skipKind skipCount readValue) a)
    (Hb : spec.holdsJSON (types.Inner skipKind skipCount readValue) b)
    (Hc : spec.holdsJSON (types.Inner skipKind skipCount readValue) c) :
  let less x y :=
    types.Less List_Less Map_Less skipKind skipCount readValue kindNumber
      x (types.LV_JSONDoc y) in
  less a a = Ok false
  /\ (less a b = Ok true -> less b a = Ok false)
  /\ (less a b = Ok true -> less b c = Ok true -> less a c = Ok true).
Proof.
  destruct Ha as (va & Ia & Ja), Hb as (vb & Ib & Jb), Hc as (vc & Ic & Jc).
  intros less. subst less. unfold types.Less, types.Compare.
  rewrite Ia, Ib, Ic.
  destruct (compareJSON_defined_antisym List_Less Map_Less HL HM va vb Ja Jb)
    as (z & Hab & _ & Hba).
  destruct (compareJSON_defined_antisym List_Less Map_Less HL HM vb vc Jb Jc)
    as (y & Hbc & _ & _).
  rewrite (compareJSON_same List_Less Map_Less HL HM va Ja), Hab, Hba, Hbc.
  repeat split.
  - intros [= Hz]. apply Z.eqb_eq in Hz. subst z. reflexivity.
  - intros [= Hz] [= Hy]. apply Z.eqb_eq in Hz, Hy. subst z y.
    rewrite (compareJSON_lt_trans List_Less Map_Less HL HM va vb vc Ja Jb Jc Hab Hbc).
    reflexivity.
Qed.

Lemma JSONDoc_Less_strict_order_witness :
  sample.less (sample.docOf Byte.x00) (types.LV_JSONDoc (sample.docOf Byte.x00))
  = Ok false
  /\ (sample.less (sample.docOf Byte.x00) (types.LV_JSONDoc (sample.docOf Byte.x61))
      = Ok true ->
      sample.less (sample.docOf Byte.x61) (types.LV_JSONDoc (sample.docOf Byte.x00))
      = Ok false)
  /\ (sample.less (sample.docOf Byte.x00) (types.LV_JSONDoc (sample.docOf Byte.x61))
      = Ok true ->
      sample.less (sample.docOf Byte.x61) (types.LV_JSONDoc (sample.docOf Byte.x62))
      = Ok true ->
      sample.less (sample.docOf Byte.x00) (types.LV_JSONDoc (sample.docOf Byte.x62))
      = Ok true).
Proof.
  apply (JSONDoc_Less_strict_order sample.shorter sample.shorter
           sample.skipByte sample.skipByte sample.readValue sample.kindNumber
           (shorter_StrictWeak _) (shorter_StrictWeak _)
           (sample.docOf Byte.x00) (sample.docOf Byte.x61) (sample.docOf Byte.x62));
    eexists; split; reflexivity.
Defined.

(** * Refs as strings *)

Lemma prefix_append (p s : string) : String.prefix p (String.append p s) = true.
Proof.
  induction p as [|c p IH]; simpl; [destruct s; reflexivity|].
  destruct (ascii_dec c c) as [_|Hne]; [exact IH | contradiction].
Qed.

Lemma drop_append (p s : string) :
  ref.drop (String.length p) (String.append p s) = s.
Proof. induction p as [|c p IH]; simpl; [destruct s; reflexivity | exact IH]. Qed.

Lemma length_append (p s : string) :
  String.length (String.append p s) = (String.length p + String.length s)%nat.
Proof. induction p as [|c p IH]; simpl; [reflexivity | rewrite IH; reflexivity]. Qed.

Lemma prefix_inv (p : string) :
  forall s, String.prefix p s = true ->
            s = String.append p (ref.drop (String.length p) s).
Proof.
  induction p as [|c p IH]; intros [|d s]; simpl; try reflexivity.
  - intros H. discriminate H.
  - destruct (ascii_dec c d) as [<-|_]; [|intros H; discriminate H].
    intros H.
    change (String.String c s
            = String.String c (String.append p (ref.drop (String.length p) s))).
    f_equal. apply IH, H.
Qed.

(** Of the three type prefixes at most one is a prefix of a string. *)
Lemma type_prefixes_exclusive (str : string) (ty ty' : ref.RefType) :
  In ty ref.RefTypes -> In ty' ref.RefTypes -> ty <> ty' ->
  ref.HasPrefix str (ref.PrefixForType ty) = true ->
  ref.HasPrefix str (ref.PrefixForType ty') = false.
Proof.
  intros Hty Hty' Hne Hp. apply prefix_inv in Hp. rewrite Hp.
  generalize (ref.drop (String.length (ref.PrefixForType ty)) str). intros rest.
  simpl in Hty, Hty'.
  destruct Hty as [<-|[<-|[<-|[]]]], Hty' as [<-|[<-|[<-|[]]]];
    try contradiction; reflexivity.
Qed.

Section ParseFacts.

Variable order : list ref.RefType.
Hypothesis order_keys : Permutation ref.RefTypes order.

Lemma parseLoop_match (l : list ref.RefType) (str : string) (ty : ref.RefType) :
  (forall r, In r l -> In r ref.RefTypes) ->
  In ty l -> In ty ref.RefTypes ->
  ref.HasPrefix str (ref.PrefixForType ty) = true ->
  ref.parseLoop l str
  = match ref.sliceFrom (String.length (ref.PrefixForType ty) + 1) str with
    | ref.Panic msg => ref.Panic msg
    | ref.Ret path => ref.Ret (ref.mkDoltRef ty path, None)
    end.
Proof.
  intros Hl Hin Hty Hp. induction l as [|r l IH]; [destruct Hin|].
  cbn [ref.parseLoop].
  destruct (String.eqb_spec r ty) as [->|Hne].
  - rewrite Hp. reflexivity.
  - rewrite (type_prefixes_exclusive str ty r Hty (Hl r (or_introl eq_refl))
               (not_eq_sym Hne) Hp).
    apply IH.
    + intros r' Hr'. apply Hl. right. exact Hr'.
    + destruct Hin as [E|Hin]; [contradiction | exact Hin].
Qed.

Lemma parseLoop_no_match (l : list ref.RefType) (str : string) :
  (forall r, In r l -> ref.HasPrefix str (ref.PrefixForType r) = false) ->
  ref.parseLoop l str = ref.Ret (ref.InvalidRef, Some ref.ErrUnknownRefType).
Proof.
  induction l as [|r l IH]; intros H; [reflexivity|].
  cbn [ref.parseLoop]. rewrite (H r (or_introl eq_refl)).
  apply IH. intros r' Hr'. apply H. right. exact Hr'.
Qed.

Lemma order_in (r : ref.RefType) : In r order <-> In r ref.RefTypes.
Proof.
  split; intros H.
  - apply (Permutation_in r (Permutation_sym order_keys) H).
  - apply (Permutation_in r order_keys H).
Qed.

(** [Parse] on a string that starts with the prefix of a known type. *)
Lemma Parse_match (str : string) (ty : ref.RefType) :
  In ty ref.RefTypes ->
  ref.HasPrefix str (ref.PrefixForType ty) = true ->
  ref.Parse order str
  = match ref.sliceFrom (String.length (ref.PrefixForType ty) + 1) str with
    | ref.Panic msg => ref.Panic msg
    | ref.Ret path => ref.Ret (ref.mkDoltRef ty path, None)
    end.
Proof.
  intros Hty Hp. unfold ref.Parse.
  assert (Href : ref.IsRef str = true).
  { apply prefix_inv in Hp. rewrite Hp.
    generalize (ref.drop (String.length (ref.PrefixForType ty)) str).
    intros rest. simpl in Hty.
    destruct Hty as [<-|[<-|[<-|[]]]]; reflexivity. }
  rewrite Href. cbn [negb].
  apply parseLoop_match; auto.
  - intros r. apply order_in.
  - apply order_in, Hty.
Qed.

Lemma Parse_no_match (str : string) :
  ref.IsRef str = true ->
  (forall ty, In ty ref.RefTypes ->
              ref.HasPrefix str (ref.PrefixForType ty) = false) ->
  ref.Parse order str = ref.Ret (ref.InvalidRef, Some ref.ErrUnknownRefType).
Proof.
  intros Href H. unfold ref.Parse. rewrite Href. cbn [negb].
  apply parseLoop_no_match. intros r Hr. apply H, order_in, Hr.
Qed.

Lemma Parse_after_prefix (ty : ref.RefType) (c : ascii) (p : string) :
  In ty ref.RefTypes ->
  ref.Parse order
    (String.append (ref.PrefixForType ty) (String.String c p))
  = ref.Ret (ref.mkDoltRef ty p, None).
Proof.
  intros Hty. rewrite (Parse_match _ ty Hty) by apply prefix_append.
  unfold ref.sliceFrom. rewrite length_append. cbn [String.length].
  destruct (Nat.leb_spec (String.length (ref.PrefixForType ty) + 1)
              (String.length (ref.PrefixForType ty) + S (String.length p)));
    [|lia].
  rewrite Nat.add_1_r.
  change (ref.drop (S (String.length (ref.PrefixForType ty))))
    with (ref.drop (String.length (String.String c (ref.PrefixForType ty)))).
  f_equal. f_equal. f_equal.
  clear. induction (ref.PrefixForType ty) as [|d q IH]; [reflexivity|].
  cbn [String.length String.append ref.drop] in *. exact IH.
Qed.

End ParseFacts.

Lemma prefix_refl (p : string) : String.prefix p p = true.
Proof.
  induction p as [|c p IH]; simpl; [reflexivity|].
  destruct (ascii_dec c c) as [_|Hne]; [exact IH | contradiction].
Qed.

Lemma no_prefix_of_any (str : string) :
  existsb (fun ty => ref.HasPrefix str (ref.PrefixForType ty)) ref.RefTypes = false ->
  forall ty, In ty ref.RefTypes -> ref.HasPrefix str (ref.PrefixForType ty) = false.
Proof.
  intros H ty Hty.
  destruct (ref.HasPrefix str (ref.PrefixForType ty)) eqn:Hp; [|reflexivity].
  assert (E : existsb (fun ty => ref.HasPrefix str (ref.PrefixForType ty))
                ref.RefTypes = true).
  { apply existsb_exists. exists ty. auto. }
  congruence.
Qed.

(** X21: [Parse] undoes [String]: for a ref of type heads, remotes or
    internal, parsing its string form gives the ref back with no error,
    in whatever order the loop of [Parse] visits the ref types. *)
Theorem Parse_String_round_trip (order : list ref.RefType) (dr : ref.DoltRef)
    (Horder : Permutation ref.RefTypes order)
    (Hty : In (ref.Type_ dr) ref.RefTypes) :
  ref.Parse order (ref.String dr) = ref.Ret (dr, None).
Proof.
  destruct dr as [ty p]. cbn [ref.Type_] in Hty.
  apply (Parse_after_prefix order Horder ty "/" p Hty).
Qed.

Lemma Parse_String_round_trip_witness :
  ref.Parse [ref.RemoteRef; ref.InternalRef; ref.BranchRef]
    (ref.String (ref.mkDoltRef ref.BranchRef "main"))
  = ref.Ret (ref.mkDoltRef ref.BranchRef "main", None).
Proof.
  apply (Parse_String_round_trip [ref.RemoteRef; ref.InternalRef; ref.BranchRef]
           (ref.mkDoltRef ref.BranchRef "main")).
  - apply (Permutation_cons_append [ref.RemoteRef; ref.InternalRef] ref.BranchRef).
  - left. reflexivity.
Defined.

(** X22: the order in which the loop of [Parse] visits the keys of the
    map of ref types never shows: every order gives, on every string, the
    result of the order heads, remotes, internal. *)
Theorem Parse_order_irrelevant (order : list ref.RefType) (str : string)
    (Horder : Permutation ref.RefTypes order) :
  ref.Parse order str = ref.Parse ref.RefTypes str.
Proof.
  destruct (ref.IsRef str) eqn:Href;
    [|unfold ref.Parse; rewrite Href; reflexivity].
  destruct (existsb (fun ty => ref.HasPrefix str (ref.PrefixForType ty))
              ref.RefTypes) eqn:E.
  - apply existsb_exists in E as (ty & Hty & Hp).
    rewrite (Parse_match order Horder str ty Hty Hp).
    rewrite (Parse_match ref.RefTypes (Permutation_refl _) str ty Hty Hp).
    reflexivity.
  - rewrite (Parse_no_match order Horder str Href (no_prefix_of_any str E)).
    rewrite (Parse_no_match ref.RefTypes (Permutation_refl _) str Href
               (no_prefix_of_any str E)).
    reflexivity.
Qed.

Lemma Parse_order_irrelevant_witness :
  ref.Parse [ref.InternalRef; ref.BranchRef; ref.RemoteRef] "refs/remotes/origin/main"
  = ref.Parse ref.RefTypes "refs/remotes/origin/main".
Proof.
  apply (Parse_order_irrelevant [ref.InternalRef; ref.BranchRef; ref.RemoteRef]).
  apply (Permutation_sym
           (Permutation_cons_append [ref.BranchRef; ref.RemoteRef] ref.InternalRef)).
Defined.

(** X23: after the prefix of a known type [Parse] drops one character
    without looking at it, so any separator is taken for the slash; and
    on the bare prefix, with nothing after it, [Parse] panics on its
    slice. *)
Theorem Parse_separator_unchecked (order : list ref.RefType) (ty : ref.RefType)
    (Horder : Permutation ref.RefTypes order)
    (Hty : In ty ref.RefTypes) :
  ref.Parse order (ref.PrefixForType ty) = ref.Panic ref.slice_out_of_range
  /\ forall (c : ascii) (p : string),
       ref.Parse order (String.append (ref.PrefixForType ty) (String.String c p))
       = ref.Ret (ref.mkDoltRef ty p, None).
Proof.
  split.
  - rewrite (Parse_match order Horder _ ty Hty (prefix_refl _)).
    unfold ref.sliceFrom.
    destruct (Nat.leb_spec (String.length (ref.PrefixForType ty) + 1)
                (String.length (ref.PrefixForType ty))); [lia | reflexivity].
  - intros c p. apply (Parse_after_prefix order Horder ty c p Hty).
Qed.

Lemma Parse_separator_unchecked_witness :
  ref.Parse ref.RefTypes (ref.PrefixForType ref.BranchRef)
  = ref.Panic ref.slice_out_of_range
  /\ forall (c : ascii) (p : string),
       ref.Parse ref.RefTypes
         (String.append (ref.PrefixForType ref.BranchRef) (String.String c p))
       = ref.Ret (ref.mkDoltRef ref.BranchRef p, None).
Proof.
  apply (Parse_separator_unchecked ref.RefTypes ref.BranchRef).
  - apply Permutation_refl.
  - left. reflexivity.
Defined.

(** X24: [Parse] returns an error only for a string that starts with
    [refs/] and then with none of [heads], [remotes], [internal]; what it
    returns then is the invalid ref with [ErrUnknownRefType]. *)
Theorem Parse_error_iff (order : list ref.RefType) (str : string)
    (r : ref.DoltRef) (e : error)
    (Horder : Permutation ref.RefTypes order) :
  ref.Parse order str = ref.Ret (r, Some e)
  <-> (r = ref.InvalidRef /\ e = ref.ErrUnknownRefType
       /\ ref.IsRef str = true
       /\ forall ty, In ty ref.RefTypes ->
                     ref.HasPrefix str (ref.PrefixForType ty) = false).
Proof.
  split.
  - intros H. destruct (ref.IsRef str) eqn:Href.
    + destruct (existsb (fun ty => ref.HasPrefix str (ref.PrefixForType ty))
                  ref.RefTypes) eqn:E.
      * apply existsb_exists in E as (ty & Hty & Hp).
        rewrite (Parse_match order Horder str ty Hty Hp) in H.
        destruct (ref.sliceFrom _ str); discriminate H.
      * rewrite (Parse_no_match order Horder str Href (no_prefix_of_any str E)) in H.
        injection H as <- <-. repeat split. apply no_prefix_of_any, E.
    + unfold ref.Parse, ref.NewBranchRef in H. rewrite Href in H.
      discriminate H.
  - intros (-> & -> & Href & Hno). apply (Parse_no_match order Horder str Href Hno).
Qed.

Lemma Parse_error_iff_witness :
  ref.Parse ref.RefTypes "refs/tags/v1" = ref.Ret (ref.InvalidRef, Some ref.ErrUnknownRefType)
  <-> (ref.InvalidRef = ref.InvalidRef /\ ref.ErrUnknownRefType = ref.ErrUnknownRefType
       /\ ref.IsRef "refs/tags/v1" = true
       /\ forall ty, In ty ref.RefTypes ->
                     ref.HasPrefix "refs/tags/v1" (ref.PrefixForType ty) = false).
Proof.
  apply (Parse_error_iff ref.RefTypes "refs/tags/v1"). apply Permutation_refl.
Defined.

(** ** Constructors, equality and the JSON form *)

(** X25: handed the full string form of a ref of their own type, the
    constructors strip the type prefix but keep the slash, so the path
    they store starts with it; [NewBranchRef] panics on a ref of another
    type; and [NewRemoteRefFromPathStr] on [remotes/origin/name] is
    [NewRemoteRef origin name]. *)
Theorem constructors_on_full_refs (p : string) :
  ref.NewBranchRef (ref.String (ref.mkDoltRef ref.BranchRef p))
  = ref.Ret (ref.mkDoltRef ref.BranchRef (String.String "/" p))
  /\ ref.NewRemoteRefFromPathStr (ref.String (ref.mkDoltRef ref.RemoteRef p))
     = ref.Ret (ref.mkDoltRef ref.RemoteRef (String.String "/" p))
  /\ ref.NewInternalRef (ref.String (ref.mkDoltRef ref.InternalRef p))
     = ref.Ret (ref.mkDoltRef ref.InternalRef (String.String "/" p))
  /\ ref.NewBranchRef (ref.String (ref.mkDoltRef ref.RemoteRef p))
     = ref.Panic (ref.not_of_type (ref.String (ref.mkDoltRef ref.RemoteRef p))
                    (ref.PrefixForType ref.BranchRef))
  /\ (forall origin name,
        ref.NewRemoteRefFromPathStr
          (String.append "remotes/" (String.append origin (String.append "/" name)))
        = ref.Ret (ref.NewRemoteRef origin name)).
Proof.
  repeat split; try reflexivity.
  intros origin name. unfold ref.NewRemoteRefFromPathStr, ref.NewRemoteRef.
  change (ref.IsRef (String.append "remotes/"
                       (String.append origin (String.append "/" name))))
    with false.
  change (ref.HasPrefix (String.append "remotes/"
                           (String.append origin (String.append "/" name)))
            "remotes/")
    with (String.prefix ""
            (String.append origin (String.append "/" name))).
  destruct (String.append origin (String.append "/" name)); reflexivity.
Qed.

(** X26: [Equals] holds exactly between equal refs, and [EqualsStr]
    accepts the string form of the ref itself and only strings that parse
    to it. *)
Theorem Equals_and_EqualsStr (order : list ref.RefType) (dr : ref.DoltRef)
    (Horder : Permutation ref.RefTypes order)
    (Hty : In (ref.Type_ dr) ref.RefTypes) :
  (forall other, ref.Equals dr other = true <-> dr = other)
  /\ ref.EqualsStr order dr (ref.String dr) = ref.Ret true
  /\ (forall str, ref.EqualsStr order dr str = ref.Ret true ->
                  ref.Parse order str = ref.Ret (dr, None)).
Proof.
  assert (Heq : forall other, ref.Equals dr other = true <-> dr = other).
  { intros [ty' p']. destruct dr as [ty p]. unfold ref.Equals. cbn. split.
    - intros H. apply andb_prop in H as [H1 H2].
      apply String.eqb_eq in H1, H2. congruence.
    - intros [= -> ->]. rewrite !String.eqb_refl. reflexivity. }
  split; [exact Heq|]. split.
  - unfold ref.EqualsStr.
    destruct dr as [ty p]. cbn [ref.Type_] in Hty.
    change (ref.String (ref.mkDoltRef ty p))
      with (String.append (ref.PrefixForType ty) (String.String "/" p)).
    rewrite (Parse_after_prefix order Horder ty "/" p Hty).
    f_equal. apply Heq. reflexivity.
  - intros str. unfold ref.EqualsStr.
    destruct (ref.Parse order str) as [[other [e|]]|msg]; try discriminate.
    intros [= H]. apply Heq in H. subst other. reflexivity.
Qed.

Lemma Equals_and_EqualsStr_witness :
  (forall other,
     ref.Equals (ref.mkDoltRef ref.RemoteRef "origin/main") other = true
     <-> ref.mkDoltRef ref.RemoteRef "origin/main" = other)
  /\ ref.EqualsStr ref.RefTypes (ref.mkDoltRef ref.RemoteRef "origin/main")
       (ref.String (ref.mkDoltRef ref.RemoteRef "origin/main")) = ref.Ret true
  /\ (forall str,
        ref.EqualsStr ref.RefTypes (ref.mkDoltRef ref.RemoteRef "origin/main") str
        = ref.Ret true ->
        ref.Parse ref.RefTypes str
        = ref.Ret (ref.mkDoltRef ref.RemoteRef "origin/main", None)).
Proof.
  apply (Equals_and_EqualsStr ref.RefTypes (ref.mkDoltRef ref.RemoteRef "origin/main")).
  - apply Permutation_refl.
  - right. left. reflexivity.
Defined.

Lemma byte_of_rune_ascii (c : ascii) : ref.byte_of_rune (N_of_ascii c) = c.
Proof.
  unfold ref.byte_of_rune. rewrite N.mod_small by apply N_ascii_bounded.
  apply ascii_N_embedding.
Qed.

(** The loop of [MarshalJSON] over an ASCII string copies it, byte for
    byte, into the room left after the bytes before it. *)
Lemma marshal_loop_ascii (decode : string -> N * nat) (s : string) :
  forall (fuel i : nat) (front junk back : list ascii),
    spec.isASCII s = true ->
    (String.length s <= fuel)%nat ->
    length front = (i + 1)%nat ->
    length junk = String.length s ->
    fold_left (fun data '(i, b) => <[(i + 1)%nat := ref.byte_of_rune b]> data)
      (ref.rangeString decode fuel i s) (front ++ junk ++ back)
    = front ++ list_ascii_of_string s ++ back.
Proof.
  induction s as [|c r IH]; intros fuel i front junk back Hs Hfuel Hfront Hjunk.
  - destruct junk; [|discriminate Hjunk].
    destruct fuel; reflexivity.
  - destruct fuel as [|fuel]; [cbn in Hfuel; lia|].
    destruct junk as [|j junk]; [discriminate Hjunk|].
    cbn [spec.isASCII] in Hs. apply andb_prop in Hs as [Hc Hr].
    cbn [ref.rangeString]. rewrite Hc. cbn [fold_left].
    rewrite byte_of_rune_ascii.
    rewrite insert_app_r_alt by lia.
    replace (i + 1 - length front)%nat with 0%nat by lia.
    cbn [list_ascii_of_string].
    change (<[0%nat:=c]> ((j :: junk) ++ back)) with (c :: junk ++ back).
    replace (front ++ c :: junk ++ back)
      with ((front ++ [c]) ++ junk ++ back)
      by (rewrite <- app_assoc; reflexivity).
    replace (front ++ (c :: list_ascii_of_string r) ++ back)
      with ((front ++ [c]) ++ list_ascii_of_string r ++ back)
      by (rewrite <- app_assoc; reflexivity).
    apply IH; auto; cbn in *; try rewrite length_app; cbn; lia.
Qed.

Lemma MarshalJSON_ascii (decode : string -> N * nat) (dr : ref.DoltRef) :
  spec.isASCII (ref.String dr) = true ->
  ref.MarshalJSON decode dr
  = ref.quote :: list_ascii_of_string (ref.String dr) ++ [ref.quote].
Proof.
  intros Hs. unfold ref.MarshalJSON.
  set (str := ref.String dr) in *.
  assert (E : <[(String.length str + 1)%nat := ref.quote]>
                (<[0%nat := ref.quote]> (repeat zero (String.length str + 2)))
              = [ref.quote] ++ repeat zero (String.length str) ++ [ref.quote]).
  { replace (String.length str + 2)%nat with (S (String.length str + 1)) by lia.
    cbn [repeat]. rewrite repeat_app. cbn [repeat].
    change (<[0%nat:=ref.quote]> (zero :: repeat zero (String.length str) ++ [zero]))
      with ([ref.quote] ++ repeat zero (String.length str) ++ [zero]).
    rewrite app_assoc.
    rewrite insert_app_r_alt by (rewrite length_app, repeat_length; cbn; lia).
    rewrite length_app, repeat_length. cbn [length].
    replace (String.length str + 1 - (1 + String.length str))%nat with 0%nat by lia.
    rewrite <- app_assoc. reflexivity. }
  rewrite E.
  apply (marshal_loop_ascii decode str (String.length str) 0
           [ref.quote] (repeat zero (String.length str)) [ref.quote]); auto.
  apply repeat_length.
Qed.

Lemma innerBytes_quoted (l : list ascii) (q : ascii) :
  ref.innerBytes (q :: l ++ [q]) = ref.Ret l.
Proof.
  unfold ref.innerBytes. cbn [length]. rewrite length_app. cbn [length].
  destruct (Nat.leb_spec 2 (S (length l + 1))); [|lia].
  replace (S (length l + 1) - 2)%nat with (length l) by lia.
  cbn [skipn]. f_equal. apply take_app_length.
Qed.

(** X27: [UnmarshalJSON] undoes [MarshalJSON] on a ref of a known type
    whose string form is ASCII: the bytes written are the string form
    between two quotes, and reading them back into any ref gives the ref
    marshalled and no error. *)
Theorem UnmarshalJSON_MarshalJSON_round_trip
    (decode : string -> N * nat) (order : list ref.RefType)
    (dr dr0 : ref.DoltRef)
    (Horder : Permutation ref.RefTypes order)
    (Hty : In (ref.Type_ dr) ref.RefTypes)
    (Hascii : spec.isASCII (ref.String dr) = true) :
  ref.MarshalJSON decode dr
  = ref.quote :: list_ascii_of_string (ref.String dr) ++ [ref.quote]
  /\ ref.UnmarshalJSON order dr0 (ref.MarshalJSON decode dr) = ref.Ret (dr, None).
Proof.
  rewrite (MarshalJSON_ascii decode dr Hascii). split; [reflexivity|].
  unfold ref.UnmarshalJSON. rewrite innerBytes_quoted.
  rewrite string_of_list_ascii_of_string.
  destruct dr as [ty p]. cbn [ref.Type_] in Hty.
  change (ref.String (ref.mkDoltRef ty p))
    with (String.append (ref.PrefixForType ty) (String.String "/" p)).
  rewrite (Parse_after_prefix order Horder ty "/" p Hty). reflexivity.
Qed.

Lemma UnmarshalJSON_MarshalJSON_round_trip_witness :
  ref.MarshalJSON sample.decodeByte (ref.mkDoltRef ref.BranchRef "main")
  = ref.quote
      :: list_ascii_of_string (ref.String (ref.mkDoltRef ref.BranchRef "main"))
      ++ [ref.quote]
  /\ ref.UnmarshalJSON ref.RefTypes ref.InvalidRef
       (ref.MarshalJSON sample.decodeByte (ref.mkDoltRef ref.BranchRef "main"))
     = ref.Ret (ref.mkDoltRef ref.BranchRef "main", None).
Proof.
  apply (UnmarshalJSON_MarshalJSON_round_trip sample.decodeByte ref.RefTypes
           (ref.mkDoltRef ref.BranchRef "main") ref.InvalidRef).
  - apply Permutation_refl.
  - left. reflexivity.
  - reflexivity.
Defined.

(** * Sending metrics *)

(** X28: whatever the collaborators answer, [SendMetrics] exits with 0, 1
    or 2; it takes at most one lock and calls [Unlock] once for every lock
    it took, after the flush and also when the flush fails; when [Unlock]
    returns nil no lock is held at the end, and when it returns an error
    that error is logged and changes neither the exit code nor the locks
    taken; events are flushed only while the lock is held; nothing is
    touched when metrics are disabled; and the exit code is 2 exactly
    when metrics are enabled, the home directory is found, and the lock
    or the flush fails. *)
Theorem SendMetrics_exit_code_and_lock (w : commands.Run) :
  let r := commands.SendMetrics w in
  (r.1 = 0 \/ r.1 = 1 \/ r.1 = 2)
  /\ spec.unlockCalls r.2 = spec.locksTaken r.2
  /\ (spec.locksTaken r.2 <= 1)%nat
  /\ (commands.Unlock w = None ->
      spec.locksHeld r.2 0 = 0%nat
      /\ (spec.locksTaken r.2 = 1%nat ->
          exists home, r.2 = [commands.Locked; commands.Flushed home;
                              commands.Unlocked]))
  /\ (forall e, commands.Unlock w = Some e -> spec.locksTaken r.2 = 1%nat ->
                exists home, r.2 = [commands.Locked; commands.Flushed home;
                                    commands.UnlockFailed e; commands.Logged e])
  /\ (forall u, (commands.SendMetrics (spec.withUnlock w u)).1 = r.1
                /\ spec.locksTaken (commands.SendMetrics (spec.withUnlock w u)).2
                   = spec.locksTaken r.2)
  /\ spec.flushesUnderLock r.2 0 = true
  /\ ((commands.AreMetricsDisabled w).1 = true -> r.2 = [])
  /\ (r.1 = 2 <->
      exists home,
        commands.AreMetricsDisabled w = (false, None)
        /\ commands.GetUserHomeDir w = Ok home
        /\ (is_Some (commands.LockWithTimeout w)
            \/ is_Some (commands.FlushEvents w))).
Proof.
  destruct w as [[disabled err] home lock flush unlock].
  unfold commands.SendMetrics, commands.flockAndFlush, spec.withUnlock. cbn.
  split; [|split; [|split; [|split; [|split; [|split; [|split; [|split]]]]]]].
  - destruct disabled, err, home, lock, flush; cbn; auto.
  - destruct disabled, err, home, lock, flush, unlock; reflexivity.
  - destruct disabled, err, home, lock, flush, unlock; cbn; lia.
  - intros ->. split.
    + destruct disabled, err, home, lock, flush; reflexivity.
    + destruct disabled, err, home, lock, flush; cbn; intros H;
        try discriminate H; eexists; reflexivity.
  - intros e ->.
    destruct disabled, err, home, lock, flush; cbn; intros H;
      try discriminate H; eexists; reflexivity.
  - intros u. destruct disabled, err, home, lock, flush, u, unlock;
      split; reflexivity.
  - destruct disabled, err, home, lock, flush, unlock; reflexivity.
  - intros ->. destruct err; reflexivity.
  - split.
    + destruct disabled, err, home as [h|eh], lock as [el|], flush as [ef|];
        cbn; intros H; try discriminate H;
        exists h; repeat split; eauto.
    + intros (h & [= -> ->] & -> & [[x ->]|[x ->]]); [reflexivity|].
      destruct lock; reflexivity.
Qed.

(** * Errors of Next *)

(** X29: [Next] fails exactly when the insert value fails to coerce; it
    then returns that error and leaves the tracker as it was. *)
Theorem Next_error_iff
    (lowerRun : string -> string)
    (math_Round : spec_float -> spec_float)
    (Uint64_Convert : dsess.GoValue -> Result (option N))
    (a : dsess.AutoIncrementTracker) (t : string) (v : dsess.GoValue) (e : error) :
  ((dsess.Next lowerRun math_Round Uint64_Convert a t v).1 = Err e
   <-> dsess.CoerceAutoIncrementValue math_Round Uint64_Convert v = Err e)
  /\ ((dsess.Next lowerRun math_Round Uint64_Convert a t v).1 = Err e ->
      (dsess.Next lowerRun math_Round Uint64_Convert a t v).2 = a).
Proof.
  unfold dsess.Next.
  destruct (dsess.CoerceAutoIncrementValue math_Round Uint64_Convert v)
    as [given|e'].
  - destruct (given =? 0)%N; [|destruct (_ <=? given)%N]; cbn;
      split; try split; intros H; discriminate H.
  - cbn. split; [split; intros H; exact H | reflexivity].
Qed.
